(** * Task manager: a shallow embedding of [taskmanager.py]

    The development follows the source file top to bottom: the values a
    task field can hold, the [Task] class, the [TaskRepository]
    interface, its JSON file implementation [JsonTaskRepository] over a
    small model of the file system, and the [TaskManager] that keeps
    the in-memory collection and saves it after every mutation.  The
    theorems come after the definitions. *)

From Stdlib Require Import ZArith.
From Stdlib Require Import Floats.SpecFloat.
From stdpp Require Import gmap strings list fin_maps pretty.

Set Warnings "-register-all,-clear-no-such-hyp".
Set Default Proof Using "Type".

Open Scope Z_scope.

(** ** Python values

    The fields of a [Task] are not checked by the constructor, and
    [load_tasks] fills them with whatever [json.load] found in the
    file.  A field therefore holds any value of the JSON data model:
    [None], a [bool], an [int] (unbounded), a [float], a [str], a
    [list], or a [dict] with string keys.  A Python [dict] has one
    value per key, so it is a finite map.  A [str] is kept as the
    bytes of its UTF-8 form, a lone surrogate as the three bytes of
    its code point. *)

Inductive pyval : Type :=
  | PNone
  | PBool (b : bool)
  | PInt (z : Z)
  | PFloat (f : spec_float)
  | PStr (s : string)
  | PList (l : list pyval)
  | PDict (d : gmap string pyval).

(** [f == z] for a float [f] and an int [z]: Python compares the two
    numbers exactly; [nan] and the infinities equal no integer. *)
Definition float_eq_int (f : spec_float) (z : Z) : bool :=
  match f with
  | S754_zero _ => z =? 0
  | S754_finite s m e =>
      let v := if s then Z.neg m else Z.pos m in
      if 0 <=? e then v * 2 ^ e =? z else v =? z * 2 ^ (- e)
  | S754_infinity _ | S754_nan => false
  end.

(** [v == n] where [n] is an [int]: the comparison [complete_task]
    performs.  [bool] is a subclass of [int] ([True == 1]); a value
    that is not a number equals no integer. *)
Definition py_eq_int (v : pyval) (n : Z) : bool :=
  match v with
  | PBool b => (if b then 1 else 0) =? n
  | PInt z => z =? n
  | PFloat f => float_eq_int f n
  | PNone | PStr _ | PList _ | PDict _ => false
  end.

(** Iterating over a value, as the [for] of a comprehension does: a
    list yields its elements, a string its characters, a dict its
    keys; the other values are not iterable. *)
Definition py_chars (s : string) : list pyval :=
  (λ c, PStr (String c EmptyString)) <$> String.list_ascii_of_string s.

(** ** Exceptions and results

    The builtin exceptions carry interpreter-made messages that the
    program never inspects; they are kept as constants.  The two
    exceptions the program raises itself carry what it puts in them:
    [ValueError(msg)] and [Exception(f"{prefix}{e}")]. *)

Inductive exn : Type :=
  | FileNotFoundError
  | OSError
  | JSONDecodeError
  | TypeError
  | UnicodeEncodeError
  | ValueError (msg : string)
  | Exception (prefix : string) (e : exn).

Inductive result (A : Type) : Type :=
  | Return (a : A)
  | Raise (e : exn).
Arguments Return {A} a.
Arguments Raise {A} e.

#[export] Instance result_ret : MRet result := λ A a, Return a.
#[export] Instance result_bind : MBind result := λ A B f m,
  match m with Return a => f a | Raise e => Raise e end.

Definition py_iter (v : pyval) : result (list pyval) :=
  match v with
  | PList l => Return l
  | PStr s => Return (py_chars s)
  | PDict d => Return (PStr <$> (map_to_list d).*1)
  | PNone | PBool _ | PInt _ | PFloat _ => Raise TypeError
  end.

(** The spec's names for the two failures a caller sees. *)
Definition StorageError (e : exn) : Prop :=
  ∃ cause, e = Exception "Error saving tasks: " cause
         ∨ e = Exception "Error loading tasks: " cause.

Definition TaskNotFoundError (e : exn) : Prop :=
  ∃ msg, e = ValueError msg.

(** Computations that read and write a world [W] and may raise.  The
    world reached when an exception is raised is kept: Python does not
    undo effects. *)
Definition io (W A : Type) : Type := W → result A * W.

#[export] Instance io_ret {W} : MRet (io W) := λ A a w, (Return a, w).
#[export] Instance io_bind {W} : MBind (io W) := λ A B f m w,
  match m w with
  | (Return a, w') => f a w'
  | (Raise e, w') => (Raise e, w')
  end.

Definition raise {W A} (e : exn) : io W A := λ w, (Raise e, w).

Definition lift {W A} (r : result A) : io W A := λ w, (r, w).

(** [try: body / except Exception as e: handler e]. *)
Definition try_except {W A} (body : io W A) (handler : exn → io W A) : io W A :=
  λ w, match body w with
       | (Return a, w') => (Return a, w')
       | (Raise e, w') => handler e w'
       end.

(** ** class Task *)

Record Task : Type := mkTask {
  task_id : pyval;
  title : pyval;
  description : pyval;
  completed : pyval
}.

Definition mark_completed (self : Task) : Task :=
  {| task_id := task_id self;
     title := title self;
     description := description self;
     completed := PBool true |}.

Definition to_dict (self : Task) : gmap string pyval :=
  {[ "task_id" := task_id self;
     "title" := title self;
     "description" := description self;
     "completed" := completed self ]}.

(** Calling [Task] with the entries of a dict as keyword arguments
    binds them to the parameters of [__init__(self, task_id, title,
    description, completed=False)].  A keyword that names no parameter, or a
    parameter without default that receives no keyword, is a
    [TypeError]. *)
Definition Task_params : gset string :=
  {[ "task_id"; "title"; "description"; "completed" ]}.

Definition Task_init (kwargs : gmap string pyval) : result Task :=
  if decide (dom kwargs ⊆ Task_params) then
    match kwargs !! "task_id", kwargs !! "title", kwargs !! "description" with
    | Some i, Some t, Some d =>
        Return (mkTask i t d (default (PBool false) (kwargs !! "completed")))
    | _, _, _ => Raise TypeError
    end
  else Raise TypeError.

(** The element [task_data] is unpacked into keyword arguments, for
    which it must be a mapping. *)
Definition Task_of (task_data : pyval) : result Task :=
  match task_data with
  | PDict d => Task_init d
  | _ => Raise TypeError
  end.

(** The test of [complete_task]: [task.task_id == task_id]. *)
Definition has_id (n : Z) (task : Task) : bool := py_eq_int (task_id task) n.

(** The comprehension of [load_tasks]: one [Task] per element of
    [data], the first element that cannot be made a task raising. *)
Definition tasks_of_data (data : pyval) : result (list Task) :=
  task_datas ← py_iter data; mapM Task_of task_datas.

(** ** class TaskRepository (abstract) *)

Class TaskRepository (R W : Type) : Type := {
  save_tasks : R → list Task → io W unit;
  load_tasks : R → io W (list Task)
}.

(** ** The file system

    A file's text is represented by what [json.load] makes of it: the
    value it denotes, or nothing when the text is not a JSON document
    (this includes the empty file and every proper prefix of a
    serialised array).  [open], reading and writing can each fail with
    an [OSError]; the faults of the environment are a schedule of which
    every such step consumes one entry (none left: no fault).  A
    file is found under its path as written: two spellings of one
    path, or two links to one file, are not identified. *)

Inductive text : Type :=
  | Document (v : pyval)
  | Malformed.

Inductive io_event : Type := io_ok | io_fault.

Record FileSystem : Type := mkFS {
  files : gmap string text;
  events : list io_event
}.

Definition next_event : io FileSystem io_event := λ fs,
  match events fs with
  | [] => (Return io_ok, fs)
  | ev :: evs => (Return ev, mkFS (files fs) evs)
  end.

Definition write_file (path : string) (t : text) : io FileSystem unit :=
  λ fs, (Return (), mkFS (<[path := t]> (files fs)) (events fs)).

(** [open(path, 'r')]: an error of [open] can strike whether the path
    exists or not (too many open files, a component of the path that
    is not a directory, no permission to search it); when none does,
    a path that does not exist is reported as such. *)
Definition find_file (path : string) : io FileSystem string := λ fs,
  match files fs !! path with
  | None => (Raise FileNotFoundError, fs)
  | Some _ => (Return path, fs)
  end.

Definition open_r (path : string) : io FileSystem string :=
  ev ← next_event;
  match ev with
  | io_ok => find_file path
  | io_fault => raise OSError
  end.

(** [open(path, 'w')] creates the file or truncates it to length zero. *)
Definition open_w (path : string) : io FileSystem string :=
  ev ← next_event;
  match ev with
  | io_ok => write_file path Malformed;; mret path
  | io_fault => raise OSError
  end.

(** [json.load(file)]: reads the whole file, then parses it. *)
Definition parse_file (file : string) : io FileSystem pyval := λ fs,
  match files fs !! file with
  | Some (Document v) => (Return v, fs)
  | Some Malformed => (Raise JSONDecodeError, fs)
  | None => (Raise OSError, fs)
  end.

Definition json_load (file : string) : io FileSystem pyval :=
  ev ← next_event;
  match ev with
  | io_ok => parse_file file
  | io_fault => raise OSError
  end.

(** [json.dump(obj, file, indent=4)]: a write that fails leaves a
    proper prefix of the document in the file.  The encoder is taken
    to accept [obj]; it does so for what [json.load] returned and for
    the tasks [add_task] makes, but refuses an int beyond
    [int_max_str_digits] digits, a failure that is not modelled. *)
Definition json_dump (obj : pyval) (file : string) : io FileSystem unit :=
  ev ← next_event;
  match ev with
  | io_ok => write_file file (Document obj)
  | io_fault => write_file file Malformed;; raise OSError
  end.

(** ** class JsonTaskRepository *)

Module JsonTaskRepository.

Record t : Type := mk { file_path : string }.

Definition save_tasks (self : t) (tasks : list Task) : io FileSystem unit :=
  try_except
    (file ← open_w (file_path self);
     json_dump (PList ((λ task, PDict (to_dict task)) <$> tasks)) file)
    (λ e, raise (Exception "Error saving tasks: " e)).

Definition load_tasks (self : t) : io FileSystem (list Task) :=
  try_except
    (file ← open_r (file_path self);
     data ← json_load file;
     lift (tasks_of_data data))
    (λ e, match e with
          | FileNotFoundError => mret []
          | _ => raise (Exception "Error loading tasks: " e)
          end).

End JsonTaskRepository.

#[export] Instance JsonTaskRepository_TaskRepository :
  TaskRepository JsonTaskRepository.t FileSystem :=
  {| save_tasks := JsonTaskRepository.save_tasks;
     load_tasks := JsonTaskRepository.load_tasks |}.

(** ** class TaskManager *)

Module TaskManager.

Record t (R : Type) : Type := mk {
  repository : R;
  tasks : list Task
}.
Arguments mk {R} repository tasks.
Arguments repository {R} _.
Arguments tasks {R} _.

Section WithRepository.
Context {R W : Type} `{!TaskRepository R W}.

(** [TaskManager(repository)] *)
Definition init (repository : R) : io W (t R) :=
  tasks ← load_tasks repository;
  mret (mk repository tasks).

(** The methods mutate [self] and the repository's world; both are
    returned, also when the method raises. *)
Definition add_task (title description : string) : io (t R * W) unit :=
  λ '(self, w),
    let task_id := Z.of_nat (length (tasks self)) + 1 in
    let task := mkTask (PInt task_id) (PStr title) (PStr description) (PBool false) in
    let self := mk (repository self) (tasks self ++ [task]) in
    let '(r, w) := save_tasks (repository self) (tasks self) w in
    (r, (self, w)).

(** The loop of [complete_task]: the first task whose id equals
    [task_id] is marked; [None] when the loop runs to its end. *)
Fixpoint complete_first (task_id : Z) (tasks : list Task) : option (list Task) :=
  match tasks with
  | [] => None
  | task :: rest =>
      if has_id task_id task
      then Some (mark_completed task :: rest)
      else (task ::.) <$> complete_first task_id rest
  end.

Definition complete_task (task_id : Z) : io (t R * W) unit :=
  λ '(self, w),
    match complete_first task_id (tasks self) with
    | Some tasks' =>
        let self := mk (repository self) tasks' in
        let '(r, w) := save_tasks (repository self) (tasks self) w in
        (r, (self, w))
    | None =>
        (Raise (ValueError ("Task with ID " +:+ pretty task_id +:+ " not found")),
         (self, w))
    end.

Definition list_tasks (self : t R) : list Task := tasks self.

End WithRepository.

End TaskManager.

(** ** Notions used by the specification *)

(** Two tasks share an id when their [task_id] are the same value, or
    when one integer equals both under Python's [==] (so that
    [complete_task] cannot tell them apart). *)
Definition same_id (t1 t2 : Task) : Prop :=
  task_id t1 = task_id t2 ∨ ∃ n, has_id n t1 = true ∧ has_id n t2 = true.

Definition unique_ids (tasks : list Task) : Prop :=
  ∀ i j t1 t2,
    tasks !! i = Some t1 → tasks !! j = Some t2 → same_id t1 t2 → i = j.

(** The ids are [1..n] in order, [n] the length of the collection. *)
Definition contiguous_ids (tasks : list Task) : Prop :=
  task_id <$> tasks = (λ i, PInt (Z.of_nat i)) <$> seq 1 (length tasks).




(** The array of objects [save_tasks] hands to [json.dump]. *)
Definition to_dicts (tasks : list Task) : pyval :=
  PList ((λ task, PDict (to_dict task)) <$> tasks).

(** No fault is scheduled. *)
Definition fault_free (fs : FileSystem) : Prop :=
  Forall (λ ev, ev = io_ok) (events fs).

(** The persisted state of a JSON repository: what [load_tasks]
    retrieves from the files as they are, no fault interfering. *)
Definition persisted (self : JsonTaskRepository.t) (fs : FileSystem) : result (list Task) :=
  (JsonTaskRepository.load_tasks self (mkFS (files fs) [])).1.

(** What [load_tasks] makes of the file when no fault interferes. *)
Definition load_result (o : option text) : result (list Task) :=
  match o with
  | None => Return []
  | Some Malformed => Raise (Exception "Error loading tasks: " JSONDecodeError)
  | Some (Document v) =>
      match tasks_of_data v with
      | Return ts => Return ts
      | Raise _ => Raise (Exception "Error loading tasks: " TypeError)
      end
  end.

(** A caller making a sequence of [add_task] calls, one statement after
    the other. *)
Fixpoint add_tasks {R W : Type} `{!TaskRepository R W}
    (calls : list (string * string)) : io (TaskManager.t R * W) unit :=
  match calls with
  | [] => mret ()
  | (title, description) :: rest =>
      TaskManager.add_task title description;; add_tasks rest
  end.

(** The tasks that [calls] create when the collection already holds
    [n] tasks. *)
Fixpoint new_tasks (n : nat) (calls : list (string * string)) : list Task :=
  match calls with
  | [] => []
  | (title, description) :: rest =>
      mkTask (PInt (Z.of_nat n + 1)) (PStr title) (PStr description) (PBool false)
      :: new_tasks (S n) rest
  end.

(** The keys [Task_init] cannot do without. *)
Definition Task_required : gset string :=
  {[ "task_id"; "title"; "description" ]}.

(** ** Callers

    A caller of the manager makes calls of [add_task] and
    [complete_task]; one that wraps each call in [try]/[except] goes
    on with the next call after an exception, with the manager and the
    repository as the failed call left them. *)

Inductive op : Type :=
  | Add (title description : string)
  | Complete (task_id : Z).

Definition run_op {R W : Type} `{!TaskRepository R W} (o : op) :
    io (TaskManager.t R * W) unit :=
  match o with
  | Add title description => TaskManager.add_task title description
  | Complete task_id => TaskManager.complete_task task_id
  end.

Fixpoint run_ops {R W : Type} `{!TaskRepository R W}
    (ops : list op) (s : TaskManager.t R * W) : TaskManager.t R * W :=
  match ops with
  | [] => s
  | o :: rest => run_ops rest (run_op o s).2
  end.

(** [t'] is [t] but for its flag, which is as it was or [True]. *)
Definition same_but_flag (t t' : Task) : Prop :=
  task_id t' = task_id t ∧ title t' = title t ∧ description t' = description t
  ∧ (completed t' = completed t ∨ completed t' = PBool true).

(** The number of [add_task] calls among [ops]. *)
Fixpoint adds (ops : list op) : nat :=
  match ops with
  | [] => 0
  | Add _ _ :: rest => S (adds rest)
  | Complete _ :: rest => adds rest
  end.

(** ** def main

    The process owns the disk and its standard output, a list of
    lines.  Two things are the interpreter's business and are taken
    as parameters: how a value is formatted in an f-string field, and
    what [print] does with a line, which is to write it or to raise
    (a [UnicodeEncodeError] when the encoding of the standard output
    lacks a character of the line, an [OSError] when the stream
    cannot be written). *)

Record Process : Type := mkProcess {
  disk : FileSystem;
  stdout : list string
}.

Section Main.
Variable py_format : pyval → string.
Variable stdout_write : string → option exn.

Definition task_line (task : Task) : string :=
  "Task " +:+ py_format (task_id task) +:+ ": " +:+ py_format (title task)
  +:+ " - Completed: " +:+ py_format (completed task).

Definition print (line : string) : io Process unit := λ p,
  match stdout_write line with
  | None => (Return (), mkProcess (disk p) (stdout p ++ [line]))
  | Some e => (Raise e, p)
  end.

(** The loop [for task in manager.list_tasks(): print(...)]. *)
Fixpoint print_tasks (tasks : list Task) : io Process unit :=
  match tasks with
  | [] => mret ()
  | task :: rest => print (task_line task);; print_tasks rest
  end.

Definition main : io Process unit := λ p,
  let repository := JsonTaskRepository.mk "tasks.json" in
  match TaskManager.init repository (disk p) with
  | (Raise e, fs) => (Raise e, mkProcess fs (stdout p))
  | (Return manager, fs) =>
      match (TaskManager.add_task "Comprar víveres" "Leche, pan, huevos";;
             TaskManager.add_task "Estudiar" "Repasar SOLID y ACID";;
             TaskManager.complete_task 1) (manager, fs) with
      | (Raise e, (_, fs)) => (Raise e, mkProcess fs (stdout p))
      | (Return _, (manager, fs)) =>
          print_tasks (TaskManager.list_tasks manager) (mkProcess fs (stdout p))
      end
  end.

End Main.

(** [str] on the values the scenarios print: [None], booleans,
    integers and strings. *)
Definition format_simple (v : pyval) : string :=
  match v with
  | PNone => "None"
  | PBool true => "True"
  | PBool false => "False"
  | PInt z => pretty z
  | PStr s => s
  | PFloat _ | PList _ | PDict _ => "?"
  end.

(** ** Scenarios *)

Module Scenario.

Definition repo : JsonTaskRepository.t := JsonTaskRepository.mk "tasks.json".

Definition empty_disk : FileSystem := mkFS ∅ [].

Definition task (n : Z) (ttl descr : string) (done : bool) : Task :=
  mkTask (PInt n) (PStr ttl) (PStr descr) (PBool done).

(** A disk on which [tasks.json] holds the given collection. *)
Definition disk_with (tasks : list Task) (evs : list io_event) : FileSystem :=
  mkFS {[ "tasks.json" := Document (to_dicts tasks) ]} evs.

End Scenario.

(** * Properties *)
(** ** The loop of [complete_task] *)


Lemma has_id_PInt n t z : task_id t = PInt z → has_id n t = true ↔ z = n.
Proof. unfold has_id. intros ->. simpl. apply Z.eqb_eq. Qed.

Lemma complete_first_None n ts :
  TaskManager.complete_first n ts = None ↔ Forall (λ t, has_id n t = false) ts.
Proof.
  induction ts as [|t ts IH]; simpl.
  - split; [constructor | done].
  - destruct (has_id n t) eqn:Ht.
    + split; [done | by inversion 1; congruence].
    + rewrite fmap_None, IH. split.
      * by constructor.
      * by inversion 1.
Qed.

Lemma complete_first_Some n ts ts' :
  TaskManager.complete_first n ts = Some ts' ↔
  ∃ i t, ts !! i = Some t ∧ has_id n t = true
         ∧ (∀ j u, (j < i)%nat → ts !! j = Some u → has_id n u = false)
         ∧ ts' = <[i := mark_completed t]> ts.
Proof.
  revert ts'. induction ts as [|t ts IH]; intros ts'; simpl.
  - split; [done | by intros (i & u & ? & _)].
  - destruct (has_id n t) eqn:Ht.
    + split.
      * intros [= <-]. exists 0%nat, t. repeat split; try done. intros; lia.
      * intros ([|i] & u & Hi & Hu & Hlt & ->); simpl in *.
        -- by simplify_eq.
        -- specialize (Hlt 0%nat t). rewrite Hlt in Ht; [done | lia | done].
    + rewrite fmap_Some. split.
      * intros (tl & Htl & ->). apply IH in Htl as (i & u & Hi & Hu & Hlt & ->).
        exists (S i), u. repeat split; try done.
        intros [|j] v Hj Hv; simpl in *; [by simplify_eq|].
        apply (Hlt j); [lia | done].
      * intros ([|i] & u & Hi & Hu & Hlt & ->); simpl in *.
        -- simplify_eq. congruence.
        -- exists (<[i := mark_completed u]> ts). split; [|done].
           apply IH. exists i, u. repeat split; try done.
           intros j v Hj Hv. apply (Hlt (S j)); [lia | done].
Qed.

Lemma complete_first_is_Some n ts :
  is_Some (TaskManager.complete_first n ts) ↔ ∃ t, t ∈ ts ∧ has_id n t = true.
Proof.
  rewrite <- not_eq_None_Some, complete_first_None.
  rewrite <- Exists_Forall_neg by (intros t; destruct (has_id n t); [right|left]; congruence).
  rewrite Exists_exists. split; intros (t & ? & Ht); exists t; split; try done.
  - by destruct (has_id n t).
  - by rewrite Ht.
Qed.

Lemma complete_first_ids n ts ts' :
  TaskManager.complete_first n ts = Some ts' → task_id <$> ts' = task_id <$> ts.
Proof.
  intros (i & t & Hi & _ & _ & ->)%complete_first_Some.
  rewrite list_fmap_insert. simpl. apply list_insert_id.
  by rewrite list_lookup_fmap, Hi.
Qed.


(** ** Uniqueness of ids *)

Lemma unique_ids_fmap_eq ts ts' :
  task_id <$> ts' = task_id <$> ts → unique_ids ts → unique_ids ts'.
Proof.
  intros Hids Huniq i j t1 t2 Hi Hj Hsame.
  assert (∀ k t, ts' !! k = Some t → ∃ u, ts !! k = Some u ∧ task_id u = task_id t) as Hback.
  { intros k t Hk. apply (f_equal (fmap task_id)) in Hk.
    rewrite <- list_lookup_fmap, Hids, list_lookup_fmap in Hk.
    destruct (ts !! k) as [u|]; simplify_eq/=. eauto. }
  destruct (Hback _ _ Hi) as (u1 & Hu1 & E1), (Hback _ _ Hj) as (u2 & Hu2 & E2).
  apply (Huniq i j u1 u2); try done.
  unfold same_id, has_id in *. rewrite E1, E2. done.
Qed.

Lemma unique_ids_snoc ts t :
  unique_ids (ts ++ [t]) ↔
  unique_ids ts ∧ ∀ u, u ∈ ts → ¬ same_id u t.
Proof.
  split.
  - intros Huniq. split.
    + intros i j t1 t2 Hi Hj. apply Huniq; by apply lookup_app_l_Some.
    + intros u (i & Hi)%list_elem_of_lookup Hsame.
      assert (i = length ts) as ->.
      { apply (Huniq i (length ts) u t); try done.
        - by apply lookup_app_l_Some.
        - by rewrite list_lookup_middle. }
      apply lookup_lt_Some in Hi. lia.
  - intros [Huniq Hfresh] i j t1 t2 Hi Hj Hsame.
    apply lookup_snoc_Some in Hi as [[Hi Hi']|[-> ->]];
      apply lookup_snoc_Some in Hj as [[Hj Hj']|[-> ->]]; try done.
    + by apply (Huniq i j t1 t2).
    + destruct (Hfresh t1); [by eapply list_elem_of_lookup_2 | done].
    + destruct (Hfresh t2); [by eapply list_elem_of_lookup_2 |].
      destruct Hsame as [E | (n & ? & ?)]; [by left | right; eauto].
Qed.

(** A task shares the id of a freshly numbered task exactly when it
    answers to that number. *)
Lemma same_id_PInt u t n :
  task_id t = PInt n → same_id u t ↔ has_id n u = true.
Proof.
  intros Ht. unfold same_id. split.
  - intros [E | (m & Hu & Hm)].
    + unfold has_id. rewrite E, Ht. simpl. apply Z.eqb_refl.
    + apply (has_id_PInt m t n Ht) in Hm as ->. done.
  - intros Hu. right. exists n. split; [done|]. by apply (has_id_PInt n t n Ht).
Qed.

Lemma contiguous_ids_lookup ts i t :
  contiguous_ids ts → ts !! i = Some t → task_id t = PInt (Z.of_nat (S i)).
Proof.
  intros Hc Hi. pose proof (lookup_lt_Some _ _ _ Hi) as Hlt.
  apply (f_equal (.!! i)) in Hc.
  rewrite !list_lookup_fmap, Hi, lookup_seq_lt in Hc by done.
  by simplify_eq/=.
Qed.

Lemma contiguous_ids_unique ts :
  contiguous_ids ts →
  unique_ids ts
  ∧ ∀ u, u ∈ ts → has_id (Z.of_nat (length ts) + 1) u = false.
Proof.
  intros Hc. split.
  - intros i j t1 t2 Hi Hj Hsame.
    pose proof (contiguous_ids_lookup _ _ _ Hc Hi) as E1.
    pose proof (contiguous_ids_lookup _ _ _ Hc Hj) as E2.
    destruct Hsame as [E | (n & H1 & H2)].
    + rewrite E1, E2 in E. injection E. lia.
    + apply (has_id_PInt _ _ _ E1) in H1. apply (has_id_PInt _ _ _ E2) in H2. lia.
  - intros u (i & Hi)%list_elem_of_lookup.
    pose proof (lookup_lt_Some _ _ _ Hi) as Hlt.
    apply not_true_is_false. intros Hid.
    apply (has_id_PInt _ _ _ (contiguous_ids_lookup _ _ _ Hc Hi)) in Hid. lia.
Qed.

(** ** The JSON repository *)

(** Every entry of a schedule known to hold no fault is [io_ok]. *)
Ltac schedule_ok :=
  repeat match goal with
         | H : Forall _ (_ :: _) |- _ => apply Forall_cons in H as [-> H]
         end.

(** The ways [save_tasks] can end: the document is stored; or [open]
    failed and nothing was touched; or the write failed after [open]
    had truncated the file. *)
Lemma save_tasks_outcomes self ts fs :
  ∃ evs,
    JsonTaskRepository.save_tasks self ts fs =
      (Return (),
       mkFS (<[JsonTaskRepository.file_path self := Document (to_dicts ts)]> (files fs)) evs)
    ∨ JsonTaskRepository.save_tasks self ts fs =
      (Raise (Exception "Error saving tasks: " OSError), mkFS (files fs) evs)
    ∨ JsonTaskRepository.save_tasks self ts fs =
      (Raise (Exception "Error saving tasks: " OSError),
       mkFS (<[JsonTaskRepository.file_path self := Malformed]> (files fs)) evs).
Proof.
  destruct self as [path], fs as [fl evs].
  unfold JsonTaskRepository.save_tasks, try_except, open_w, json_dump, to_dicts,
    mbind, io_bind, next_event, write_file, raise; simpl.
  destruct evs as [|[] [|[] evs]]; simpl; rewrite ?insert_insert_eq; eauto.
Qed.

Lemma save_tasks_fault_free self ts fs :
  fault_free fs →
  ∃ fs', JsonTaskRepository.save_tasks self ts fs = (Return (), fs')
         ∧ files fs' = <[JsonTaskRepository.file_path self := Document (to_dicts ts)]> (files fs)
         ∧ fault_free fs'.
Proof.
  destruct self as [path], fs as [fl evs]. unfold fault_free; simpl.
  unfold JsonTaskRepository.save_tasks, try_except, open_w, json_dump, to_dicts,
    mbind, io_bind, next_event, write_file, raise; simpl.
  intros Hevs.
  destruct evs as [|ev1 [|ev2 evs]]; schedule_ok; simpl;
    rewrite insert_insert_eq; eexists; (split; [reflexivity|]); simpl; by split.
Qed.

Lemma Task_init_to_dict t : Task_init (to_dict t) = Return t.
Proof.
  unfold Task_init, to_dict.
  rewrite decide_True.
  - simplify_map_eq. by destruct t.
  - unfold Task_params. rewrite !dom_insert_L, dom_singleton_L. set_solver.
Qed.

Lemma mapM_Task_of_to_dicts ts :
  mapM Task_of ((λ task, PDict (to_dict task)) <$> ts) = Return ts.
Proof.
  induction ts as [|t ts IH]; [done|].
  rewrite fmap_cons. simpl. rewrite Task_init_to_dict. simpl. by rewrite IH.
Qed.

Lemma py_iter_raise v e : py_iter v = Raise e → e = TypeError.
Proof. destruct v; simpl; congruence. Qed.

Lemma Task_of_raise x e : Task_of x = Raise e → e = TypeError.
Proof.
  destruct x; simpl; try congruence. unfold Task_init.
  repeat case_match; congruence.
Qed.

Lemma mapM_Task_of_raise l e : mapM Task_of l = Raise e → e = TypeError.
Proof.
  induction l as [|x l IH]; simpl; [done|].
  destruct (Task_of x) eqn:Hx; simpl.
  - destruct (mapM Task_of l); simpl; [done|]. intros [= <-]. by apply IH.
  - intros [= <-]. by eapply Task_of_raise.
Qed.

Lemma mapM_Task_of_elem l x e :
  x ∈ l → Task_of x = Raise e → mapM Task_of l = Raise TypeError.
Proof.
  induction 1 as [x l|x y l Hx IH]; intros Hr; simpl.
  - rewrite Hr. simpl. f_equal. by eapply Task_of_raise.
  - destruct (Task_of y) eqn:Hy; simpl; [|f_equal; by eapply Task_of_raise].
    by rewrite IH.
Qed.

Lemma tasks_of_data_raise v e : tasks_of_data v = Raise e → e = TypeError.
Proof.
  unfold tasks_of_data. destruct (py_iter v) eqn:Hv; simpl.
  - apply mapM_Task_of_raise.
  - intros [= <-]. by eapply py_iter_raise.
Qed.

Lemma load_tasks_absent self fs :
  files fs !! JsonTaskRepository.file_path self = None →
  JsonTaskRepository.load_tasks self fs =
  (match head (events fs) with
   | Some io_fault => Raise (Exception "Error loading tasks: " OSError)
   | _ => Return []
   end, mkFS (files fs) (tail (events fs))).
Proof.
  destruct self as [path], fs as [fl evs]; simpl. intros Hnone.
  cbv [JsonTaskRepository.load_tasks JsonTaskRepository.file_path try_except open_r
       find_file mbind io_bind next_event files events].
  destruct evs as [|[] evs]; cbv [files]; rewrite ?Hnone; reflexivity.
Qed.

Lemma load_tasks_existing self fs txt :
  files fs !! JsonTaskRepository.file_path self = Some txt →
  ∃ evs,
    JsonTaskRepository.load_tasks self fs =
      (Raise (Exception "Error loading tasks: " OSError), mkFS (files fs) evs)
    ∨ JsonTaskRepository.load_tasks self fs = (load_result (Some txt), mkFS (files fs) evs).
Proof.
  destruct self as [path], fs as [fl evs]; simpl. intros Htxt.
  assert (∀ evs', ∃ evs,
    try_except
      (data ← parse_file path;
       lift (tasks_of_data data))
      (λ e, match e with
            | FileNotFoundError => mret []
            | _ => raise (Exception "Error loading tasks: " e)
            end) (mkFS fl evs') = (load_result (Some txt), mkFS fl evs)) as Hparse.
  { intros evs'. exists evs'.
    cbv [try_except mbind io_bind parse_file lift files]. rewrite Htxt.
    destruct txt as [v|]; simpl; [|done].
    destruct (tasks_of_data v) as [ts|e] eqn:Hr; [done|].
    by apply tasks_of_data_raise in Hr as ->. }
  cbv [JsonTaskRepository.load_tasks JsonTaskRepository.file_path try_except open_r
       find_file json_load mbind io_bind next_event files events].
  destruct evs as [|[] [|[] evs]]; cbv [files]; rewrite ?Htxt;
    cbv [mret io_ret raise]; eauto;
    match goal with
    | |- ∃ _, _ ∨ _ = (_, mkFS _ _) => idtac
    end.
  - destruct (Hparse []) as [evs' Hp]. exists evs'. right. exact Hp.
  - destruct (Hparse []) as [evs' Hp]. exists evs'. right. exact Hp.
  - destruct (Hparse evs) as [evs' Hp]. exists evs'. right. exact Hp.
Qed.

Lemma load_tasks_fault_free self fs :
  fault_free fs →
  ∃ fs', JsonTaskRepository.load_tasks self fs
           = (load_result (files fs !! JsonTaskRepository.file_path self), fs')
         ∧ files fs' = files fs ∧ fault_free fs'.
Proof.
  intros Hff. destruct (files fs !! JsonTaskRepository.file_path self) as [txt|] eqn:Htxt.
  - destruct self as [path], fs as [fl evs]; simpl in *. unfold fault_free in *; simpl in *.
    cbv [JsonTaskRepository.load_tasks JsonTaskRepository.file_path try_except open_r
         find_file json_load mbind io_bind next_event files events].
    destruct evs as [|ev1 [|ev2 evs]]; schedule_ok;
      cbv [mret io_ret raise parse_file files]; rewrite !Htxt;
      (destruct txt as [v|]; simpl;
       [destruct (tasks_of_data v) as [ts|e] eqn:Hr; cbv [lift]; rewrite ?Hr;
        [|apply tasks_of_data_raise in Hr as ->] |]);
      (eexists; split; [reflexivity | by split]).
  - rewrite load_tasks_absent by done. exists (mkFS (files fs) (tail (events fs))).
    destruct fs as [fl [|ev evs]]; unfold fault_free in *; simpl in *; [done|].
    schedule_ok. done.
Qed.

Lemma persisted_load_result self fs :
  persisted self fs = load_result (files fs !! JsonTaskRepository.file_path self).
Proof.
  unfold persisted.
  destruct (load_tasks_fault_free self (mkFS (files fs) [])) as (fs' & -> & _); [|done].
  by constructor.
Qed.

Lemma tasks_of_data_to_dicts ts : tasks_of_data (to_dicts ts) = Return ts.
Proof. apply mapM_Task_of_to_dicts. Qed.

Lemma load_result_to_dicts ts : load_result (Some (Document (to_dicts ts))) = Return ts.
Proof. unfold load_result. by rewrite tasks_of_data_to_dicts. Qed.

(** ** The manager over any repository *)

Section Manager.
Context {R W : Type} `{!TaskRepository R W}.
Implicit Types (self : TaskManager.t R) (w : W) (repo : R).

Lemma init_load repo w self w' :
  TaskManager.init repo w = (Return self, w') ↔
  ∃ ts, load_tasks repo w = (Return ts, w') ∧ self = TaskManager.mk repo ts.
Proof.
  unfold TaskManager.init, mbind, io_bind, mret, io_ret.
  destruct (load_tasks repo w) as [[ts|e] w1]; split.
  - intros [= <- <-]. eauto.
  - intros (ts' & [= <- <-] & ->). done.
  - done.
  - by intros (ts' & [=] & _).
Qed.

Lemma add_task_eq title descr self w :
  TaskManager.add_task title descr (self, w) =
  let task := mkTask (PInt (Z.of_nat (length (TaskManager.tasks self)) + 1))
                     (PStr title) (PStr descr) (PBool false) in
  let ts := TaskManager.tasks self ++ [task] in
  ((save_tasks (TaskManager.repository self) ts w).1,
   (TaskManager.mk (TaskManager.repository self) ts,
    (save_tasks (TaskManager.repository self) ts w).2)).
Proof.
  unfold TaskManager.add_task; simpl. by destruct (save_tasks _ _ w).
Qed.

Lemma complete_task_found n self w ts :
  TaskManager.complete_first n (TaskManager.tasks self) = Some ts →
  TaskManager.complete_task n (self, w) =
  ((save_tasks (TaskManager.repository self) ts w).1,
   (TaskManager.mk (TaskManager.repository self) ts,
    (save_tasks (TaskManager.repository self) ts w).2)).
Proof.
  intros Hts. unfold TaskManager.complete_task. rewrite Hts; simpl.
  by destruct (save_tasks _ _ w).
Qed.

Lemma complete_task_not_found n self w :
  TaskManager.complete_first n (TaskManager.tasks self) = None →
  TaskManager.complete_task n (self, w) =
  (Raise (ValueError ("Task with ID " +:+ pretty n +:+ " not found")), (self, w)).
Proof. intros Hts. unfold TaskManager.complete_task. by rewrite Hts. Qed.

Lemma new_tasks_ids n calls :
  task_id <$> new_tasks n calls = (λ i, PInt (Z.of_nat i)) <$> seq (S n) (length calls).
Proof.
  revert n. induction calls as [|[title descr] calls IH]; intros n; simpl; [done|].
  rewrite IH. do 2 f_equal. lia.
Qed.

Lemma new_tasks_length n calls : length (new_tasks n calls) = length calls.
Proof.
  revert n. induction calls as [|[title descr] calls IH]; intros n; simpl; [done|].
  by rewrite IH.
Qed.

Lemma contiguous_ids_new_tasks calls : contiguous_ids (new_tasks 0 calls).
Proof. unfold contiguous_ids. by rewrite new_tasks_ids, new_tasks_length. Qed.

Lemma add_tasks_tasks calls self w self' w' :
  add_tasks calls (self, w) = (Return (), (self', w')) →
  TaskManager.tasks self'
    = TaskManager.tasks self ++ new_tasks (length (TaskManager.tasks self)) calls
  ∧ TaskManager.repository self' = TaskManager.repository self.
Proof.
  revert self w. induction calls as [|[title descr] calls IH]; intros self w; simpl.
  - intros [= <- <-]. by rewrite app_nil_r.
  - unfold mbind, io_bind. rewrite add_task_eq; simpl.
    destruct (save_tasks _ _ w) as [[[]|e] w1]; simpl; [|done].
    intros [Hts Hrepo]%IH; simpl in *. split; [|done].
    rewrite Hts, length_app, <- app_assoc; simpl.
    by rewrite Nat.add_1_r.
Qed.

End Manager.

(** ** What the manager guarantees over any repository *)

Section ManagerSpec.
Context {R W : Type} `{!TaskRepository R W}.
Implicit Types (self : TaskManager.t R) (w : W) (repo : R).

(** C1, as amended.  Construction holds exactly the collection that
    [load_tasks] returned, so its ids are unique when the stored ones
    are; [complete_task] never changes an id, so it keeps the ids
    unique; [add_task] keeps them unique exactly when no task of the
    collection already answers to the number it assigns, one plus the
    length of the collection, as is the case when the ids are [1..n]. *)
Theorem unique_ids_preserved repo :
  (∀ w self w',
     TaskManager.init repo w = (Return self, w') →
     load_tasks repo w = (Return (TaskManager.tasks self), w'))
  ∧ (∀ self w title descr,
       unique_ids (TaskManager.tasks self) →
       unique_ids (TaskManager.tasks (TaskManager.add_task title descr (self, w)).2.1)
       ↔ ∀ u, u ∈ TaskManager.tasks self →
              has_id (Z.of_nat (length (TaskManager.tasks self)) + 1) u = false)
  ∧ (∀ self w n,
       unique_ids (TaskManager.tasks self) →
       unique_ids (TaskManager.tasks (TaskManager.complete_task n (self, w)).2.1))
  ∧ (∀ self,
       contiguous_ids (TaskManager.tasks self) →
       unique_ids (TaskManager.tasks self)
       ∧ ∀ u, u ∈ TaskManager.tasks self →
              has_id (Z.of_nat (length (TaskManager.tasks self)) + 1) u = false).
Proof.
  split; [|split; [|split]]; [| | |intros self; apply contiguous_ids_unique].
  - intros w self w' (ts & Hload & ->)%init_load. done.
  - intros self w title descr Huniq. rewrite add_task_eq; simpl.
    rewrite unique_ids_snoc. split.
    + intros [_ Hfresh] u Hu. apply not_true_is_false. intros Hid.
      apply (Hfresh u Hu). eapply same_id_PInt; [reflexivity | done].
    + intros Hfresh. split; [done|]. intros u Hu Hsame.
      eapply same_id_PInt in Hsame; [|reflexivity]. by rewrite Hfresh in Hsame.
  - intros self w n Huniq.
    destruct (TaskManager.complete_first n (TaskManager.tasks self)) as [ts|] eqn:Hts.
    + rewrite (complete_task_found _ _ _ _ Hts); simpl.
      eapply unique_ids_fmap_eq; [|done]. by eapply complete_first_ids.
    + by rewrite (complete_task_not_found _ _ _ Hts).
Qed.

(** C3.  Over a backend that is empty at construction, [N] calls of
    [add_task] that all return normally leave a collection whose ids
    are [1..N] in call order, and [list_tasks] has length [N]. *)
Theorem add_tasks_ids_from_empty repo w0 w1 calls self w' :
  load_tasks repo w0 = (Return [], w1) →
  add_tasks calls (TaskManager.mk repo [], w1) = (Return (), (self, w')) →
  TaskManager.init repo w0 = (Return (TaskManager.mk repo []), w1)
  ∧ TaskManager.tasks self = new_tasks 0 calls
  ∧ task_id <$> TaskManager.list_tasks self
      = (λ i, PInt (Z.of_nat i)) <$> seq 1 (length calls)
  ∧ length (TaskManager.list_tasks self) = length calls.
Proof.
  intros Hload [Hts _]%add_tasks_tasks; simpl in Hts.
  split; [apply init_load; eauto|].
  unfold TaskManager.list_tasks. rewrite Hts.
  by rewrite new_tasks_ids, new_tasks_length.
Qed.

(** C6.  For an id that no task of the collection has, [complete_task]
    raises the [ValueError] that stands for TaskNotFoundError and
    returns the manager and the repository's world as they were.  The
    equation holds for every repository, whose [save_tasks] therefore
    is not called; over the JSON repository not even an entry of the
    fault schedule is consumed. *)
Theorem complete_task_absent self w n :
  (∀ t, t ∈ TaskManager.tasks self → has_id n t = false) →
  ∃ e, TaskManager.complete_task n (self, w) = (Raise e, (self, w))
       ∧ e = ValueError ("Task with ID " +:+ pretty n +:+ " not found")
       ∧ TaskNotFoundError e.
Proof.
  intros Habs. eexists; split; [|split; [reflexivity|by eexists]].
  apply complete_task_not_found, complete_first_None, Forall_forall, Habs.
Qed.

(** C9.  Over a backend holding one task whose id is 5, the manager
    that is constructed holds that task, and its next [add_task]
    numbers the new task 2, one plus the length of the collection,
    not 6. *)
Theorem add_task_id_from_length repo w0 w1 t5 title descr :
  task_id t5 = PInt 5 →
  load_tasks repo w0 = (Return [t5], w1) →
  ∃ self t,
    TaskManager.init repo w0 = (Return self, w1)
    ∧ TaskManager.tasks (TaskManager.add_task title descr (self, w1)).2.1 = [t5; t]
    ∧ t = mkTask (PInt 2) (PStr title) (PStr descr) (PBool false)
    ∧ task_id t ≠ PInt 6.
Proof.
  intros Hid Hload. eexists (TaskManager.mk repo [t5]), _.
  split; [apply init_load; eauto|].
  rewrite add_task_eq; simpl. done.
Qed.

End ManagerSpec.

(** ** The JSON repository and the manager over it *)

Section Json.
Implicit Types (repo : JsonTaskRepository.t) (fs : FileSystem).
Implicit Types (self : TaskManager.t JsonTaskRepository.t).

(** On a disk without faults every call of a sequence of [add_task]
    returns normally, and the file then holds the collection. *)
Lemma add_tasks_fault_free calls self fs :
  fault_free fs →
  ∃ self' fs',
    add_tasks calls (self, fs) = (Return (), (self', fs'))
    ∧ fault_free fs'
    ∧ (calls ≠ [] →
       persisted (TaskManager.repository self') fs' = Return (TaskManager.tasks self')).
Proof.
  revert self fs. induction calls as [|[title descr] calls IH]; intros self fs Hff.
  - by exists self, fs.
  - simpl. unfold mbind, io_bind. rewrite add_task_eq; simpl.
    destruct (save_tasks_fault_free (TaskManager.repository self)
                (TaskManager.tasks self
                   ++ [mkTask (PInt (Z.of_nat (length (TaskManager.tasks self)) + 1))
                              (PStr title) (PStr descr) (PBool false)]) fs Hff)
      as (fs1 & -> & Hfiles & Hff1); simpl.
    destruct (IH (TaskManager.mk (TaskManager.repository self)
                (TaskManager.tasks self
                   ++ [mkTask (PInt (Z.of_nat (length (TaskManager.tasks self)) + 1))
                              (PStr title) (PStr descr) (PBool false)])) fs1 Hff1)
      as (self' & fs' & Hrun & Hff' & Hpers).
    exists self', fs'. split; [done|]. split; [done|]. intros _.
    destruct calls as [|call calls]; [|by apply Hpers].
    simpl in Hrun. injection Hrun as <- <-; simpl.
    by rewrite persisted_load_result, Hfiles, lookup_insert_eq, load_result_to_dicts.
Qed.


(** C7, as amended.  When [open] reports the configured path as
    missing, [load_tasks] returns the empty list and raises nothing;
    this is the case of a path that does not exist and an [open] that
    no other error strikes.  Every failure of [load_tasks] is a
    StorageError wrapping its cause: another error of [open], which
    can befall a path that does not exist as well, a file that does
    not parse, or data that cannot be made into tasks. *)
Theorem load_tasks_first_run repo fs :
  (files fs !! JsonTaskRepository.file_path repo = None →
   head (events fs) ≠ Some io_fault →
   JsonTaskRepository.load_tasks repo fs
     = (Return [], mkFS (files fs) (tail (events fs))))
  ∧ (head (events fs) = Some io_fault →
     JsonTaskRepository.load_tasks repo fs
       = (Raise (Exception "Error loading tasks: " OSError),
          mkFS (files fs) (tail (events fs))))
  ∧ (∀ e fs', JsonTaskRepository.load_tasks repo fs = (Raise e, fs') →
       StorageError e
       ∧ ∃ cause, e = Exception "Error loading tasks: " cause
                  ∧ cause ≠ FileNotFoundError)
  ∧ (files fs !! JsonTaskRepository.file_path repo = Some Malformed
     ∨ (∃ v e0, files fs !! JsonTaskRepository.file_path repo = Some (Document v)
                ∧ tasks_of_data v = Raise e0) →
     ∃ e fs', JsonTaskRepository.load_tasks repo fs = (Raise e, fs') ∧ StorageError e).
Proof.
  split; [|split; [|split]].
  - intros Hnone Hok. rewrite load_tasks_absent by done.
    by destruct (head (events fs)) as [[]|].
  - intros Hfault.
    destruct (files fs !! JsonTaskRepository.file_path repo) as [txt|] eqn:Htxt.
    + destruct repo as [path], fs as [fl [|ev evs]]; simpl in *; simplify_eq.
      cbv [JsonTaskRepository.load_tasks JsonTaskRepository.file_path try_except open_r
           mbind io_bind next_event events]. reflexivity.
    + rewrite load_tasks_absent by done. by rewrite Hfault.
  - intros e fs' Hload.
    assert (∃ cause, e = Exception "Error loading tasks: " cause
              ∧ cause ≠ FileNotFoundError) as (cause & -> & Hcause).
    { destruct (files fs !! JsonTaskRepository.file_path repo) as [txt|] eqn:Htxt.
      - destruct (load_tasks_existing repo fs txt Htxt) as (evs & [Hl|Hl]);
          rewrite Hl in Hload.
        + injection Hload as <- _. eauto.
        + destruct txt as [v|]; simpl in Hload.
          * destruct (tasks_of_data v); simplify_eq. eauto.
          * injection Hload as <- _. eauto.
      - rewrite load_tasks_absent in Hload by done.
        destruct (head (events fs)) as [[]|]; simplify_eq. eauto. }
    split; [eexists; by right|]. eauto.
  - intros Hbad.
    assert (∃ txt e0, files fs !! JsonTaskRepository.file_path repo = Some txt
                      ∧ load_result (Some txt) = Raise e0) as (txt & e0 & Htxt & Hres).
    { destruct Hbad as [Htxt | (v & e0 & Htxt & Hv)].
      - by exists Malformed, (Exception "Error loading tasks: " JSONDecodeError).
      - exists (Document v), (Exception "Error loading tasks: " TypeError).
        split; [done|]. simpl. by rewrite Hv. }
    destruct (load_tasks_existing repo fs _ Htxt) as (evs & [Hl|Hl]).
    + do 2 eexists. split; [exact Hl|]. eexists; by right.
    + rewrite Hres in Hl. do 2 eexists. split; [exact Hl|].
      destruct txt as [v|]; simpl in Hres.
      * destruct (tasks_of_data v); simplify_eq. eexists; by right.
      * simplify_eq. eexists; by right.
Qed.

Lemma Task_init_keys d :
  (∃ t, Task_init d = Return t) ↔ Task_required ⊆ dom d ∧ dom d ⊆ Task_params.
Proof.
  unfold Task_init, Task_required. split.
  - intros [t Ht]. case_decide as Hsub; [|done]. split; [|done].
    destruct (d !! "task_id") eqn:H1, (d !! "title") eqn:H2,
      (d !! "description") eqn:H3; try done.
    intros k Hk. apply elem_of_dom.
    apply elem_of_union in Hk as [[Hk|Hk]%elem_of_union|Hk];
      apply elem_of_singleton in Hk as ->; by eexists.
  - intros [Hreq Hsub]. rewrite decide_True by done.
    assert (is_Some (d !! "task_id")) as [i ->] by (apply elem_of_dom, Hreq; set_solver).
    assert (is_Some (d !! "title")) as [t ->] by (apply elem_of_dom, Hreq; set_solver).
    assert (is_Some (d !! "description")) as [ds ->] by (apply elem_of_dom, Hreq; set_solver).
    by eexists.
Qed.

Lemma Task_keys_cases (ks : gset string) :
  Task_required ⊆ ks ∧ ks ⊆ Task_params ↔
  ks = Task_params ∨ ks = Task_params ∖ {["completed"]}.
Proof.
  unfold Task_required, Task_params. split.
  - intros [Hreq Hsub]. destruct (decide ("completed" ∈ ks)) as [Hc|Hc].
    + left. set_solver.
    + right. set_solver.
  - intros [-> | ->]; set_solver.
Qed.

(** C10.  When the stored document is an array, an object in it whose
    key set is neither the four parameter names nor those without
    [completed] makes [load_tasks] fail with a StorageError.  An
    object without [completed] is accepted with the constructor's
    default [False]; an object with the four keys gives a task with
    exactly the stored values. *)
Theorem load_tasks_key_sets repo fs (l : list pyval) :
  files fs !! JsonTaskRepository.file_path repo = Some (Document (PList l)) →
  (∀ d, PDict d ∈ l →
        dom d ≠ Task_params → dom d ≠ Task_params ∖ {["completed"]} →
        ∃ e fs', JsonTaskRepository.load_tasks repo fs = (Raise e, fs') ∧ StorageError e)
  ∧ (∀ d, dom d = Task_params ∖ {["completed"]} →
          ∃ i t ds, d !! "task_id" = Some i ∧ d !! "title" = Some t
                    ∧ d !! "description" = Some ds
                    ∧ Task_of (PDict d) = Return (mkTask i t ds (PBool false)))
  ∧ (∀ d, dom d = Task_params →
          ∃ i t ds c, d !! "task_id" = Some i ∧ d !! "title" = Some t
                      ∧ d !! "description" = Some ds ∧ d !! "completed" = Some c
                      ∧ Task_of (PDict d) = Return (mkTask i t ds c)).
Proof.
  intros Hdoc. split; [|split].
  - intros d Hd Hne1 Hne2.
    assert (Task_of (PDict d) = Raise TypeError) as Hraise.
    { destruct (Task_of (PDict d)) as [t|e] eqn:Ht.
      - assert (∃ t, Task_init d = Return t) as Hok by eauto.
        apply Task_init_keys, Task_keys_cases in Hok as [?|?]; done.
      - f_equal. by eapply Task_of_raise. }
    assert (tasks_of_data (PList l) = Raise TypeError) as Hdata
      by (by eapply mapM_Task_of_elem).
    destruct (load_tasks_existing repo fs _ Hdoc) as (evs & [Hl|Hl]).
    + do 2 eexists. split; [exact Hl|]. eexists; by right.
    + simpl in Hl. rewrite Hdata in Hl.
      do 2 eexists. split; [exact Hl|]. eexists; by right.
  - intros d Hdom.
    assert (∃ t, Task_init d = Return t) as [t Ht].
    { apply Task_init_keys, Task_keys_cases. by right. }
    assert (d !! "completed" = None) as Hc.
    { apply not_elem_of_dom. rewrite Hdom. set_solver. }
    simpl. unfold Task_init in *. case_decide; [|done].
    destruct (d !! "task_id") as [i|], (d !! "title") as [tt|],
      (d !! "description") as [ds|]; try done.
    rewrite Hc. simpl. by exists i, tt, ds.
  - intros d Hdom.
    assert (∃ t, Task_init d = Return t) as [t Ht].
    { apply Task_init_keys, Task_keys_cases. by left. }
    assert (is_Some (d !! "completed")) as [c Hc].
    { apply elem_of_dom. rewrite Hdom. unfold Task_params. set_solver. }
    simpl. unfold Task_init in *. case_decide; [|done].
    destruct (d !! "task_id") as [i|], (d !! "title") as [tt|],
      (d !! "description") as [ds|]; try done.
    rewrite Hc. simpl. by exists i, tt, ds, c.
Qed.




End Json.

(** ** The claims on concrete runs *)

Lemma unique_ids_singleton t : unique_ids [t].
Proof. intros [|i] [|j] t1 t2 Hi Hj _; simplify_eq/=; done. Qed.

(** The run of [main] on a disk without [tasks.json]: two tasks are
    added, the first is completed, and the file holds what the manager
    holds. *)
Example main_run :
  let ts := [Scenario.task 1 "Comprar víveres" "Leche, pan, huevos" true;
             Scenario.task 2 "Estudiar" "Repasar SOLID y ACID" false] in
  let calls : io (TaskManager.t JsonTaskRepository.t * FileSystem) unit :=
    TaskManager.add_task "Comprar víveres" "Leche, pan, huevos";;
    TaskManager.add_task "Estudiar" "Repasar SOLID y ACID";;
    TaskManager.complete_task 1 in
  TaskManager.init Scenario.repo Scenario.empty_disk
    = (Return (TaskManager.mk Scenario.repo []), Scenario.empty_disk)
  ∧ calls (TaskManager.mk Scenario.repo [], Scenario.empty_disk)
    = (Return (), (TaskManager.mk Scenario.repo ts, Scenario.disk_with ts [])).
Proof. split; vm_compute; reflexivity. Qed.

(** C2.  [tasks.json] holds one task; a second one is added and the
    device fails while [json.dump] writes, after [open] has truncated
    the file.  [save_tasks] raises the StorageError, and the file is
    left holding neither the old collection nor the new one: nothing
    can be loaded from it any more. *)
Lemma save_tasks_interrupted :
  let old := [Scenario.task 1 "A" "descA" false] in
  let new := old ++ [Scenario.task 2 "B" "descB" false] in
  let fs := Scenario.disk_with old [io_ok; io_fault] in
  let fs' := mkFS {[ "tasks.json" := Malformed ]} [] in
  persisted Scenario.repo fs = Return old
  ∧ JsonTaskRepository.save_tasks Scenario.repo new fs
      = (Raise (Exception "Error saving tasks: " OSError), fs')
  ∧ persisted Scenario.repo fs' ≠ Return old
  ∧ persisted Scenario.repo fs' ≠ Return new
  ∧ persisted Scenario.repo fs'
      = Raise (Exception "Error loading tasks: " JSONDecodeError).
Proof. vm_compute. repeat split; congruence. Qed.

(** C1 fails as stated.  [tasks.json] holds one task whose id is 2:
    the ids are unique but do not start at 1.  The manager constructed
    over it gives the next task the id 2 as well. *)
Lemma add_task_duplicates_id :
  let stored := [Scenario.task 2 "X" "descX" false] in
  let fs := Scenario.disk_with stored [] in
  let self := TaskManager.mk Scenario.repo stored in
  let after := stored ++ [Scenario.task 2 "Y" "descY" false] in
  TaskManager.init Scenario.repo fs = (Return self, fs)
  ∧ unique_ids (TaskManager.tasks self)
  ∧ TaskManager.add_task "Y" "descY" (self, fs)
      = (Return (), (TaskManager.mk Scenario.repo after, Scenario.disk_with after []))
  ∧ ¬ unique_ids after.
Proof.
  intros stored fs self after.
  split; [vm_compute; reflexivity|].
  split; [apply unique_ids_singleton|].
  split; [vm_compute; reflexivity|].
  intros Huniq.
  assert (0%nat = 1%nat) as Habsurd; [|discriminate Habsurd].
  apply (Huniq 0%nat 1%nat (Scenario.task 2 "X" "descX" false)
           (Scenario.task 2 "Y" "descY" false)); [reflexivity..|].
  by left.
Qed.

(** The amended C1 on a stored collection with the single id 1. *)
Lemma unique_ids_preserved_witness :
  let stored := [Scenario.task 1 "A" "descA" false] in
  let fs := Scenario.disk_with stored [] in
  let self := TaskManager.mk Scenario.repo stored in
  load_tasks Scenario.repo fs = (Return stored, fs)
  ∧ unique_ids (TaskManager.tasks (TaskManager.add_task "B" "descB" (self, fs)).2.1)
  ∧ unique_ids (TaskManager.tasks (TaskManager.complete_task 1 (self, fs)).2.1).
Proof.
  intros stored fs self.
  destruct (unique_ids_preserved Scenario.repo) as (Hinit & Hadd & Hcomplete & _).
  split; [|split].
  - apply (Hinit fs self fs). reflexivity.
  - apply Hadd; [apply unique_ids_singleton|].
    intros u ->%list_elem_of_singleton. reflexivity.
  - apply Hcomplete, unique_ids_singleton.
Defined.

(** C3 on two calls over the empty disk. *)
Lemma add_tasks_ids_from_empty_witness :
  let calls := [("A", "descA"); ("B", "descB")] in
  let ts := [Scenario.task 1 "A" "descA" false; Scenario.task 2 "B" "descB" false] in
  let self := TaskManager.mk Scenario.repo ts in
  add_tasks calls (TaskManager.mk Scenario.repo [], Scenario.empty_disk)
    = (Return (), (self, Scenario.disk_with ts []))
  ∧ task_id <$> TaskManager.list_tasks self = [PInt 1; PInt 2]
  ∧ length (TaskManager.list_tasks self) = 2%nat.
Proof.
  intros calls ts self.
  assert (add_tasks calls (TaskManager.mk Scenario.repo [], Scenario.empty_disk)
          = (Return (), (self, Scenario.disk_with ts []))) as Hrun
    by (vm_compute; reflexivity).
  split; [exact Hrun|].
  apply (add_tasks_ids_from_empty Scenario.repo Scenario.empty_disk
           Scenario.empty_disk calls self (Scenario.disk_with ts [])).
  - vm_compute; reflexivity.
  - exact Hrun.
Defined.




(** C6 on a collection of two tasks and the id 7. *)
Lemma complete_task_absent_witness :
  let ts := [Scenario.task 1 "A" "descA" false; Scenario.task 2 "B" "descB" false] in
  let self := TaskManager.mk Scenario.repo ts in
  ∃ e, TaskManager.complete_task 7 (self, Scenario.disk_with ts [])
         = (Raise e, (self, Scenario.disk_with ts []))
       ∧ e = ValueError "Task with ID 7 not found"
       ∧ TaskNotFoundError e.
Proof.
  intros ts self. apply (complete_task_absent self (Scenario.disk_with ts []) 7).
  intros t Ht.
  apply elem_of_cons in Ht as [->|Ht]; [reflexivity|].
  apply elem_of_cons in Ht as [->|Ht]; [reflexivity|].
  by apply elem_of_nil in Ht.
Defined.

(** C7 fails as stated.  [tasks.json] does not exist, and [open] is
    struck by another error than the one that says so (as when
    [tasks.json/x] is opened beside a regular file [tasks.json]):
    [load_tasks] raises the StorageError instead of returning the
    empty list. *)
Lemma load_tasks_absent_path_fails :
  let fs := mkFS ∅ [io_fault] in
  files fs !! JsonTaskRepository.file_path Scenario.repo = None
  ∧ JsonTaskRepository.load_tasks Scenario.repo fs
    = (Raise (Exception "Error loading tasks: " OSError), Scenario.empty_disk)
  ∧ JsonTaskRepository.load_tasks Scenario.repo fs ≠ (Return [], fs).
Proof.
  intros fs. split; [reflexivity|]. split; [vm_compute; reflexivity|].
  vm_compute. discriminate.
Qed.

(** The amended C7 on the empty disk, on an [open] that fails, and on
    a file that does not parse. *)
Lemma load_tasks_first_run_witness :
  JsonTaskRepository.load_tasks Scenario.repo Scenario.empty_disk
    = (Return [], Scenario.empty_disk)
  ∧ JsonTaskRepository.load_tasks Scenario.repo (mkFS ∅ [io_fault])
    = (Raise (Exception "Error loading tasks: " OSError), Scenario.empty_disk)
  ∧ ∃ e fs', JsonTaskRepository.load_tasks Scenario.repo
               (mkFS {[ "tasks.json" := Malformed ]} []) = (Raise e, fs')
             ∧ StorageError e.
Proof.
  split; [|split].
  - apply (load_tasks_first_run Scenario.repo Scenario.empty_disk).
    + reflexivity.
    + discriminate.
  - apply (load_tasks_first_run Scenario.repo (mkFS ∅ [io_fault])). reflexivity.
  - apply (load_tasks_first_run Scenario.repo (mkFS {[ "tasks.json" := Malformed ]} [])).
    left. reflexivity.
Defined.


(** C9 on the scenario of the specification. *)
Lemma add_task_id_from_length_witness :
  let t5 := Scenario.task 5 "X" "descX" false in
  let fs := Scenario.disk_with [t5] [] in
  ∃ self t,
    TaskManager.init Scenario.repo fs = (Return self, fs)
    ∧ TaskManager.tasks (TaskManager.add_task "Y" "descY" (self, fs)).2.1 = [t5; t]
    ∧ t = Scenario.task 2 "Y" "descY" false
    ∧ task_id t ≠ PInt 6.
Proof.
  intros t5 fs.
  apply (add_task_id_from_length Scenario.repo fs fs t5 "Y" "descY").
  - reflexivity.
  - vm_compute; reflexivity.
Defined.

(** C10 on a stored object whose [task_id] key was renamed to [id]. *)
Lemma load_tasks_key_sets_witness :
  let renamed : gmap string pyval :=
    {[ "id" := PInt 5; "title" := PStr "X"; "description" := PStr "descX";
       "completed" := PBool false ]} in
  let fs := mkFS {[ "tasks.json" := Document (PList [PDict renamed]) ]} [] in
  ∃ e fs', JsonTaskRepository.load_tasks Scenario.repo fs = (Raise e, fs')
           ∧ StorageError e.
Proof.
  intros renamed fs.
  destruct (load_tasks_key_sets Scenario.repo fs [PDict renamed]) as (Hfail & _).
  { reflexivity. }
  apply (Hfail renamed).
  - apply elem_of_cons. by left.
  - intros Heq. assert ("id" ∈ Task_params) as Hin.
    { rewrite <- Heq. apply elem_of_dom. by exists (PInt 5). }
    vm_compute in Hin. discriminate Hin.
  - intros Heq. assert ("id" ∈ Task_params ∖ {["completed"]}) as Hin.
    { rewrite <- Heq. apply elem_of_dom. by exists (PInt 5). }
    apply elem_of_difference in Hin as [Hin _].
    vm_compute in Hin. discriminate Hin.
Defined.

(** * Further properties of the code *)
(** ** Tasks and their dicts *)

Lemma dom_to_dict t : dom (to_dict t) = Task_params.
Proof.
  unfold to_dict, Task_params. rewrite !dom_insert_L, dom_singleton_L. set_solver.
Qed.

Lemma Task_init_Return d t :
  Task_init d = Return t →
  dom d ⊆ Task_params
  ∧ d !! "task_id" = Some (task_id t) ∧ d !! "title" = Some (title t)
  ∧ d !! "description" = Some (description t)
  ∧ completed t = default (PBool false) (d !! "completed").
Proof.
  unfold Task_init. case_decide as Hsub; [|done].
  destruct (d !! "task_id") as [i|], (d !! "title") as [tt|],
    (d !! "description") as [ds|]; try done.
  by intros [= <-].
Qed.

(** X1.  [to_dict] produces exactly the four keys, and calling [Task]
    with them as keyword arguments gives the task back. *)
Theorem to_dict_Task_init t :
  dom (to_dict t) = Task_params ∧ Task_init (to_dict t) = Return t.
Proof. split; [apply dom_to_dict | apply Task_init_to_dict]. Qed.

(** X2.  A dict that [Task] accepts comes back from [to_dict] with the
    [completed] key filled in: unchanged when it had the key, with
    [False] under it when it had not. *)
Theorem Task_init_to_dict_default d t :
  Task_init d = Return t →
  to_dict t = <["completed" := default (PBool false) (d !! "completed")]> d
  ∧ (is_Some (d !! "completed") → to_dict t = d).
Proof.
  intros (Hsub & Hi & Ht & Hd & Hc)%Task_init_Return.
  assert (to_dict t = <["completed" := default (PBool false) (d !! "completed")]> d) as Heq.
  { apply map_eq. intros k. unfold to_dict. rewrite <- Hc.
    destruct (decide (k = "completed")) as [->|Hk1]; [by simplify_map_eq|].
    destruct (decide (k = "task_id")) as [->|Hk2]; [by simplify_map_eq|].
    destruct (decide (k = "title")) as [->|Hk3]; [by simplify_map_eq|].
    destruct (decide (k = "description")) as [->|Hk4]; [by simplify_map_eq|].
    simplify_map_eq. symmetry. apply not_elem_of_dom. intros Hk%Hsub.
    unfold Task_params in Hk. set_solver. }
  split; [done|]. intros [c Hcd]. rewrite Heq, Hcd. simpl. by apply insert_id.
Qed.

Lemma Task_init_to_dict_default_witness :
  let d : gmap string pyval :=
    {[ "task_id" := PInt 5; "title" := PStr "X"; "description" := PStr "descX" ]} in
  to_dict (mkTask (PInt 5) (PStr "X") (PStr "descX") (PBool false))
    = <["completed" := PBool false]> d.
Proof.
  intros d.
  destruct (Task_init_to_dict_default d
              (mkTask (PInt 5) (PStr "X") (PStr "descX") (PBool false))) as [Heq _].
  - vm_compute. reflexivity.
  - exact Heq.
Defined.

(** ** The JSON repository: what it touches *)

Section JsonExtra.
Implicit Types (repo other : JsonTaskRepository.t) (fs : FileSystem).

Lemma save_tasks_files repo ts fs r fs' :
  JsonTaskRepository.save_tasks repo ts fs = (r, fs') →
  (r = Return ()
   ∧ files fs' = <[JsonTaskRepository.file_path repo := Document (to_dicts ts)]> (files fs))
  ∨ (r = Raise (Exception "Error saving tasks: " OSError)
     ∧ (files fs' = files fs
        ∨ files fs' = <[JsonTaskRepository.file_path repo := Malformed]> (files fs))).
Proof.
  intros Hsave.
  destruct (save_tasks_outcomes repo ts fs) as (evs & [Ho|[Ho|Ho]]);
    rewrite Ho in Hsave; injection Hsave as <- <-; simpl; eauto.
Qed.

Lemma load_tasks_files repo fs r fs' :
  JsonTaskRepository.load_tasks repo fs = (r, fs') → files fs' = files fs.
Proof.
  intros Hload.
  destruct (files fs !! JsonTaskRepository.file_path repo) as [txt|] eqn:Htxt.
  - destruct (load_tasks_existing repo fs txt Htxt) as (evs & [Hl|Hl]);
      rewrite Hl in Hload; by injection Hload as <- <-.
  - rewrite load_tasks_absent in Hload by done. by injection Hload as <- <-.
Qed.

(** X4.  [load_tasks] only reads: whatever it returns or raises, every
    file is as it was, and so is the persisted state. *)
Theorem load_tasks_read_only repo other fs r fs' :
  JsonTaskRepository.load_tasks repo fs = (r, fs') →
  files fs' = files fs ∧ persisted other fs' = persisted other fs.
Proof.
  intros Hfiles%load_tasks_files. split; [done|].
  by rewrite !persisted_load_result, Hfiles.
Qed.



(** X7.  When [save_tasks] raises, it raises the StorageError that
    wraps the cause; the old collection is still there only if [open]
    was what failed: otherwise the file is left truncated and
    [load_tasks] fails on it. *)
Theorem save_tasks_failure repo ts fs e fs' :
  JsonTaskRepository.save_tasks repo ts fs = (Raise e, fs') →
  StorageError e
  ∧ (∃ cause, e = Exception "Error saving tasks: " cause)
  ∧ (files fs' = files fs
     ∨ (files fs' !! JsonTaskRepository.file_path repo = Some Malformed
        ∧ persisted repo fs'
          = Raise (Exception "Error loading tasks: " JSONDecodeError))).
Proof.
  intros Hsave.
  destruct (save_tasks_files _ _ _ _ _ Hsave) as [[[=] _]|[[= ->] [Hf|Hf]]].
  - split; [eexists; by left|]. split; [eauto|]. by left.
  - split; [eexists; by left|]. split; [eauto|]. right.
    assert (files fs' !! JsonTaskRepository.file_path repo = Some Malformed) as Hm
      by (by rewrite Hf, lookup_insert_eq).
    split; [done|]. by rewrite persisted_load_result, Hm.
Qed.

End JsonExtra.

(** ** The JSON repository: what it accepts *)

Lemma Task_of_Return x t :
  Task_of x = Return t ↔ ∃ d, x = PDict d ∧ Task_init d = Return t.
Proof.
  split.
  - destruct x; simpl; try done. eauto.
  - by intros (d & -> & Hd).
Qed.

Lemma mapM_Task_of_Return l ts :
  mapM Task_of l = Return ts ↔ Forall2 (λ x t, Task_of x = Return t) l ts.
Proof.
  revert ts. induction l as [|x l IH]; intros ts; simpl.
  - split; [intros [= <-]; constructor | by inversion 1].
  - split.
    + destruct (Task_of x) as [t|e] eqn:Hx; simpl; [|done].
      destruct (mapM Task_of l) as [ts'|e] eqn:Hl; simpl; [|done].
      intros [= <-]. constructor; [done|]. by apply IH.
    + inversion 1 as [|? t ? ts' Hx Hl]; subst. rewrite Hx; simpl.
      apply IH in Hl. by rewrite Hl.
Qed.

Section JsonAccepts.
Implicit Types (repo : JsonTaskRepository.t) (fs : FileSystem).

(** X8.  A stored document that is not an array: the empty object and
    the empty string have nothing to iterate over and load as the
    empty list, without error; every other value (null, a boolean, a
    number, a string or an object that is not empty) makes
    [load_tasks] fail, the cause a [TypeError]. *)
Theorem load_tasks_not_an_array repo fs v :
  files fs !! JsonTaskRepository.file_path repo = Some (Document v) →
  (∀ l, v ≠ PList l) →
  (v = PDict ∅ ∨ v = PStr "" → persisted repo fs = Return [])
  ∧ (v ≠ PDict ∅ → v ≠ PStr "" →
     persisted repo fs = Raise (Exception "Error loading tasks: " TypeError)).
Proof.
  intros Hdoc Hnl. rewrite persisted_load_result, Hdoc. simpl. split.
  - intros [-> | ->]; reflexivity.
  - intros Hd Hs.
    assert (tasks_of_data v = Raise TypeError) as ->; [|done].
    unfold tasks_of_data. destruct v as [| | | |s|l|d]; simpl; try done.
    + destruct s as [|c s]; [done|]. reflexivity.
    + by destruct (Hnl l).
    + destruct (map_to_list d) as [|[k x] kvs] eqn:Hkvs.
      * apply map_to_list_empty_iff in Hkvs as ->. done.
      * reflexivity.
Qed.

(** X9.  A stored array loads exactly when every element is an object
    that [Task] accepts as keyword arguments; the list returned then
    has one task per element, in the order of the array. *)
Theorem load_tasks_array repo fs l ts :
  files fs !! JsonTaskRepository.file_path repo = Some (Document (PList l)) →
  persisted repo fs = Return ts
  ↔ Forall2 (λ x t, ∃ d, x = PDict d ∧ Task_init d = Return t) l ts.
Proof.
  intros Hdoc. rewrite persisted_load_result, Hdoc. simpl.
  unfold tasks_of_data; simpl.
  change (result_bind _ _ (λ task_datas, mapM Task_of task_datas) (Return l))
    with (mapM Task_of l).
  split.
  - destruct (mapM Task_of l) as [ts'|e] eqn:Hl; [|done].
    intros [= <-]. apply mapM_Task_of_Return in Hl.
    eapply Forall2_impl; [exact Hl|]. intros x t. apply Task_of_Return.
  - intros Hall.
    assert (mapM Task_of l = Return ts) as ->; [|done].
    apply mapM_Task_of_Return.
    eapply Forall2_impl; [exact Hall|]. intros x t. apply Task_of_Return.
Qed.

End JsonAccepts.

(** ** Sequences of calls, over any repository *)

Lemma same_but_flag_refl t : same_but_flag t t.
Proof. repeat split; by left. Qed.

Lemma same_but_flag_trans t1 t2 t3 :
  same_but_flag t1 t2 → same_but_flag t2 t3 → same_but_flag t1 t3.
Proof.
  intros (Hi & Ht & Hd & Hc) (Hi' & Ht' & Hd' & Hc').
  repeat split; try congruence.
  destruct Hc' as [Hc'|Hc']; [|by right].
  destruct Hc as [Hc|Hc]; [left|right]; congruence.
Qed.

Lemma complete_first_length n ts ts' :
  TaskManager.complete_first n ts = Some ts' → length ts' = length ts.
Proof.
  intros (i & t & _ & _ & _ & ->)%complete_first_Some. apply length_insert.
Qed.

Lemma complete_first_same_but_flag n ts ts' i t :
  TaskManager.complete_first n ts = Some ts' → ts !! i = Some t →
  ∃ t', ts' !! i = Some t' ∧ same_but_flag t t'.
Proof.
  intros (k & u & Hk & _ & _ & ->)%complete_first_Some Hi.
  destruct (decide (k = i)) as [->|Hne].
  - exists (mark_completed u). rewrite list_lookup_insert_eq by (by eapply lookup_lt_Some).
    split; [done|]. simplify_eq. repeat split; by right.
  - exists t. rewrite list_lookup_insert_ne by done. split; [done|].
    apply same_but_flag_refl.
Qed.

Section Calls.
Context {R W : Type} `{!TaskRepository R W}.
Implicit Types (self : TaskManager.t R) (w : W) (repo : R).

(** What one call leaves in memory, however its save ends. *)
Lemma run_op_memory o self w :
  TaskManager.repository (run_op o (self, w)).2.1 = TaskManager.repository self
  ∧ TaskManager.tasks (run_op o (self, w)).2.1 =
    match o with
    | Add title descr =>
        TaskManager.tasks self
        ++ [mkTask (PInt (Z.of_nat (length (TaskManager.tasks self)) + 1))
                   (PStr title) (PStr descr) (PBool false)]
    | Complete n =>
        default (TaskManager.tasks self)
          (TaskManager.complete_first n (TaskManager.tasks self))
    end.
Proof.
  destruct o as [title descr|n]; unfold run_op.
  - by rewrite add_task_eq.
  - destruct (TaskManager.complete_first n (TaskManager.tasks self)) as [ts|] eqn:Hts.
    + by rewrite (complete_task_found _ _ _ _ Hts).
    + by rewrite (complete_task_not_found _ _ _ Hts).
Qed.

Lemma run_op_keeps o self w :
  length (TaskManager.tasks (run_op o (self, w)).2.1)
    = (length (TaskManager.tasks self) + adds [o])%nat
  ∧ ∀ i t, TaskManager.tasks self !! i = Some t →
      ∃ t', TaskManager.tasks (run_op o (self, w)).2.1 !! i = Some t'
            ∧ same_but_flag t t'.
Proof.
  destruct (run_op_memory o self w) as [_ ->].
  destruct o as [title descr|n]; simpl.
  - split; [rewrite length_app; simpl; lia|].
    intros i t Hi. exists t. split; [by apply lookup_app_l_Some|].
    apply same_but_flag_refl.
  - destruct (TaskManager.complete_first n (TaskManager.tasks self)) as [ts|] eqn:Hts; simpl.
    + split; [rewrite (complete_first_length _ _ _ Hts); lia|].
      intros i t Hi. by eapply complete_first_same_but_flag.
    + split; [lia|]. intros i t Hi. exists t. split; [done|]. apply same_but_flag_refl.
Qed.

(** X12.  Whatever calls are made and however their saves end, the
    manager never drops, moves or renames a task: the collection
    grows by one task per [add_task] call, and every task that was
    there is still at its place with its id, title and description,
    its flag as it was or [True]. *)
Theorem run_ops_keeps_tasks ops self w :
  let s' := run_ops ops (self, w) in
  TaskManager.repository s'.1 = TaskManager.repository self
  ∧ length (TaskManager.tasks s'.1) = (length (TaskManager.tasks self) + adds ops)%nat
  ∧ ∀ i t, TaskManager.tasks self !! i = Some t →
      ∃ t', TaskManager.tasks s'.1 !! i = Some t' ∧ same_but_flag t t'.
Proof.
  revert self w. induction ops as [|o ops IH]; intros self w; simpl.
  - split; [done|]. split; [lia|]. intros i t Hi. exists t. split; [done|].
    apply same_but_flag_refl.
  - destruct (run_op o (self, w)) as [r [self1 w1]] eqn:Hop; simpl.
    pose proof (run_op_memory o self w) as [Hrepo _].
    pose proof (run_op_keeps o self w) as [Hlen Hkeep].
    rewrite Hop in Hrepo, Hlen, Hkeep; simpl in *.
    destruct (IH self1 w1) as (Hrepo' & Hlen' & Hkeep').
    split; [congruence|]. split.
    + rewrite Hlen', Hlen. destruct o; simpl; lia.
    + intros i t Hi. destruct (Hkeep i t Hi) as (t1 & Hi1 & Hs1).
      destruct (Hkeep' i t1 Hi1) as (t2 & Hi2 & Hs2).
      exists t2. split; [done|]. by eapply same_but_flag_trans.
Qed.

Lemma contiguous_ids_snoc ts t :
  contiguous_ids ts → task_id t = PInt (Z.of_nat (length ts) + 1) →
  contiguous_ids (ts ++ [t]).
Proof.
  unfold contiguous_ids. intros Hc Ht.
  rewrite fmap_app, length_app, Hc; simpl.
  rewrite Nat.add_1_r, seq_S, fmap_app; simpl. rewrite Ht.
  do 3 f_equal. lia.
Qed.

Lemma run_op_contiguous_ids o self w :
  contiguous_ids (TaskManager.tasks self) →
  contiguous_ids (TaskManager.tasks (run_op o (self, w)).2.1).
Proof.
  intros Hc. destruct (run_op_memory o self w) as [_ ->].
  destruct o as [title descr|n]; simpl.
  - by apply contiguous_ids_snoc.
  - destruct (TaskManager.complete_first n (TaskManager.tasks self)) as [ts|] eqn:Hts;
      simpl; [|done].
    unfold contiguous_ids in *.
    by rewrite (complete_first_ids _ _ _ Hts), (complete_first_length _ _ _ Hts).
Qed.

(** X13.  Ids that are [1..n] stay so under every sequence of calls,
    failed saves included: a manager that starts from an empty
    collection always holds ids [1..n], no two tasks sharing one. *)
Theorem run_ops_contiguous_ids ops self w :
  contiguous_ids (TaskManager.tasks self) →
  contiguous_ids (TaskManager.tasks (run_ops ops (self, w)).1)
  ∧ unique_ids (TaskManager.tasks (run_ops ops (self, w)).1).
Proof.
  intros Hc.
  assert (contiguous_ids (TaskManager.tasks (run_ops ops (self, w)).1)) as Hc'.
  { revert self w Hc. induction ops as [|o ops IH]; intros self w Hc; simpl; [done|].
    destruct (run_op o (self, w)) as [r [self1 w1]] eqn:Hop; simpl.
    apply IH. pose proof (run_op_contiguous_ids o self w Hc) as H1.
    by rewrite Hop in H1. }
  split; [done|]. by apply contiguous_ids_unique.
Qed.

(** X15.  A task that sits behind another one answering to every
    number it answers to can never be completed: no sequence of calls
    changes it.  This is the fate of the second of two tasks with the
    same id, and of a task whose id is not a number. *)
Theorem shadowed_task_never_completed ops self w i j ti tj :
  TaskManager.tasks self !! i = Some ti →
  TaskManager.tasks self !! j = Some tj →
  (i < j)%nat →
  (∀ m, has_id m tj = true → has_id m ti = true) →
  TaskManager.tasks (run_ops ops (self, w)).1 !! j = Some tj.
Proof.
  intros Hi Hj Hlt Hshadow. revert self w ti Hi Hj Hshadow.
  induction ops as [|o ops IH]; intros self w ti Hi Hj Hshadow; simpl; [done|].
  destruct (run_op o (self, w)) as [r [self1 w1]] eqn:Hop; simpl.
  pose proof (run_op_memory o self w) as [_ Hmem].
  pose proof (run_op_keeps o self w) as [_ Hkeep].
  rewrite Hop in Hmem, Hkeep; simpl in *.
  destruct (Hkeep i ti Hi) as (ti' & Hi' & Hid & _).
  apply (IH self1 w1 ti'); [done| |].
  - rewrite Hmem. destruct o as [title descr|n]; [by apply lookup_app_l_Some|].
    destruct (TaskManager.complete_first n (TaskManager.tasks self)) as [ts|] eqn:Hts;
      simpl; [|done].
    apply complete_first_Some in Hts as (k & u & Hk & Hu & Hfirst & ->).
    rewrite list_lookup_insert_ne; [done|]. intros ->. simplify_eq.
    apply Hshadow in Hu. by rewrite (Hfirst i ti Hlt Hi) in Hu.
  - intros m Hm. apply Hshadow in Hm. unfold has_id in *. by rewrite Hid.
Qed.

End Calls.

(** ** The manager over the JSON repository *)

Section JsonManager.
Implicit Types (repo : JsonTaskRepository.t) (fs : FileSystem).
Implicit Types (self : TaskManager.t JsonTaskRepository.t).

Lemma save_tasks_Return repo ts fs fs1 :
  JsonTaskRepository.save_tasks repo ts fs = (Return (), fs1) →
  persisted repo fs1 = Return ts.
Proof.
  intros Hsave. destruct (save_tasks_files _ _ _ _ _ Hsave) as [[_ Hf]|[[=] _]].
  by rewrite persisted_load_result, Hf, lookup_insert_eq, load_result_to_dicts.
Qed.


Lemma load_tasks_Raise repo fs e fs' :
  JsonTaskRepository.load_tasks repo fs = (Raise e, fs') → StorageError e.
Proof.
  intros Hload.
  destruct (files fs !! JsonTaskRepository.file_path repo) as [txt|] eqn:Htxt.
  - destruct (load_tasks_existing repo fs txt Htxt) as (evs & [Hl|Hl]);
      rewrite Hl in Hload.
    + injection Hload as <- _. eexists; by right.
    + destruct txt as [v|]; simpl in Hload.
      * destruct (tasks_of_data v); simplify_eq. eexists; by right.
      * injection Hload as <- _. eexists; by right.
  - rewrite load_tasks_absent in Hload by done.
    destruct (head (events fs)) as [[]|]; simplify_eq. eexists; by right.
Qed.

(** The call of a method that saves [ts]: it ends as the save ends. *)
Lemma saving_call repo ts fs (r : result unit) self' fs' :
  ((save_tasks repo ts fs).1, (TaskManager.mk repo ts, (save_tasks repo ts fs).2))
    = (r, (self', fs')) →
  JsonTaskRepository.save_tasks repo ts fs = (r, fs') ∧ self' = TaskManager.mk repo ts.
Proof.
  simpl. destruct (JsonTaskRepository.save_tasks repo ts fs) as [r0 fs0]; simpl.
  by intros [= <- <- <-].
Qed.


(** X16.  The exceptions a caller can see.  Construction raises
    nothing but a StorageError.  A method raises either the
    StorageError of its save, or, for [complete_task] only, the
    TaskNotFoundError, in which case nothing has changed. *)
Theorem manager_exceptions :
  (∀ repo fs e fs', TaskManager.init repo fs = (Raise e, fs') → StorageError e)
  ∧ (∀ o self fs e self' fs',
       run_op o (self, fs) = (Raise e, (self', fs')) →
       e = Exception "Error saving tasks: " OSError
       ∨ (∃ n, o = Complete n
               ∧ e = ValueError ("Task with ID " +:+ pretty n +:+ " not found")
               ∧ self' = self ∧ fs' = fs)).
Proof.
  split.
  - intros repo fs e fs'. unfold TaskManager.init, mbind, io_bind.
    destruct (load_tasks repo fs) as [[ts|e0] fs0] eqn:Hload; [done|].
    intros [= <- <-]. by eapply load_tasks_Raise.
  - intros o self fs e self' fs'. destruct o as [title descr|n]; unfold run_op.
    + rewrite add_task_eq. cbv zeta. intros [Hsave _]%saving_call.
      destruct (save_tasks_files _ _ _ _ _ Hsave) as [[[=] _]|[[= ->] _]]. by left.
    + destruct (TaskManager.complete_first n (TaskManager.tasks self)) as [ts|] eqn:Hts.
      * rewrite (complete_task_found _ _ _ _ Hts). intros [Hsave _]%saving_call.
        destruct (save_tasks_files _ _ _ _ _ Hsave) as [[[=] _]|[[= ->] _]]. by left.
      * rewrite (complete_task_not_found _ _ _ Hts). intros [= <- <- <-].
        right. eauto.
Qed.



End JsonManager.

(** ** The run of [main] *)

Section MainRun.
Variable py_format : pyval → string.
Variable stdout_write : string → option exn.
Implicit Types (p : Process) (stored : list Task).

(** The two tasks [main] adds to a collection of [n] tasks. *)
Local Abbreviation main_tasks n :=
  (new_tasks n [("Comprar víveres", "Leche, pan, huevos");
                ("Estudiar", "Repasar SOLID y ACID")]).

Local Abbreviation line := (task_line py_format).

Lemma print_tasks_accepted ts p :
  Forall (λ t, stdout_write (line t) = None) ts →
  print_tasks py_format stdout_write ts p
    = (Return (), mkProcess (disk p) (stdout p ++ (line <$> ts))).
Proof.
  revert p. induction ts as [|t ts IH]; intros [fs out] Hall; simpl.
  - by rewrite app_nil_r.
  - apply Forall_cons in Hall as [Ht Hall].
    unfold mbind, io_bind, print; simpl. rewrite Ht, (IH _ Hall); simpl.
    by rewrite <- app_assoc.
Qed.

Lemma print_tasks_refused ts p i t e :
  ts !! i = Some t → stdout_write (line t) = Some e →
  (∀ j u, (j < i)%nat → ts !! j = Some u → stdout_write (line u) = None) →
  print_tasks py_format stdout_write ts p
    = (Raise e, mkProcess (disk p) (stdout p ++ (line <$> take i ts))).
Proof.
  revert p i. induction ts as [|u ts IH]; intros [fs out] i Hi He Hbefore; [done|].
  simpl. unfold mbind, io_bind, print; simpl. destruct i as [|i]; simpl in *.
  - simplify_eq. rewrite He. by rewrite app_nil_r.
  - rewrite (Hbefore 0%nat u) by (lia || done).
    rewrite (IH _ i Hi He); simpl.
    + by rewrite <- app_assoc.
    + intros j v Hj Hv. apply (Hbefore (S j) v); [lia | done].
Qed.

(** [main] on a disk without faults, from what the file holds. *)
Lemma main_fault_free p stored :
  fault_free (disk p) →
  persisted Scenario.repo (disk p) = Return stored →
  ∃ fs',
    fault_free fs'
    ∧ match TaskManager.complete_first 1 (stored ++ main_tasks (length stored)) with
      | Some ts' =>
          main py_format stdout_write p
            = print_tasks py_format stdout_write ts' (mkProcess fs' (stdout p))
          ∧ persisted Scenario.repo fs' = Return ts'
      | None =>
          main py_format stdout_write p
            = (Raise (ValueError "Task with ID 1 not found"), mkProcess fs' (stdout p))
          ∧ persisted Scenario.repo fs' = Return (stored ++ main_tasks (length stored))
      end.
Proof.
  intros Hff Hstored.
  set (repo := JsonTaskRepository.mk "tasks.json").
  destruct (load_tasks_fault_free repo (disk p) Hff) as (fs0 & Hload & _ & Hff0).
  rewrite <- persisted_load_result in Hload.
  change (persisted repo (disk p)) with (persisted Scenario.repo (disk p)) in Hload.
  rewrite Hstored in Hload.
  assert (TaskManager.init repo (disk p) = (Return (TaskManager.mk repo stored), fs0))
    as Hinit by (apply init_load; eauto).
  set (ts1 := stored ++ main_tasks (length stored)).
  assert (∃ fs2, fault_free fs2
            ∧ (TaskManager.add_task "Comprar víveres" "Leche, pan, huevos";;
               TaskManager.add_task "Estudiar" "Repasar SOLID y ACID";;
               TaskManager.complete_task 1) (TaskManager.mk repo stored, fs0)
              = TaskManager.complete_task 1 (TaskManager.mk repo ts1, fs2)
            ∧ persisted repo fs2 = Return ts1) as (fs2 & Hff2 & Hadds & Hpers2).
  { unfold mbind, io_bind. rewrite add_task_eq. cbv zeta. simpl TaskManager.tasks.
    simpl TaskManager.repository.
    match goal with
    | |- context [save_tasks repo ?ts fs0] =>
        destruct (save_tasks_fault_free repo ts fs0 Hff0) as (fs1 & Hs1 & _ & Hff1);
        change (save_tasks repo ts fs0) with (JsonTaskRepository.save_tasks repo ts fs0);
        rewrite Hs1
    end.
    simpl fst; simpl snd. cbv iota beta. rewrite add_task_eq. cbv zeta.
    simpl TaskManager.tasks. simpl TaskManager.repository.
    match goal with
    | |- context [save_tasks repo ?ts fs1] =>
        destruct (save_tasks_fault_free repo ts fs1 Hff1) as (fs2 & Hs2 & _ & Hff2);
        change (save_tasks repo ts fs1) with (JsonTaskRepository.save_tasks repo ts fs1);
        rewrite Hs2; pose proof (save_tasks_Return _ _ _ _ Hs2) as Hp2
    end.
    simpl fst; simpl snd. cbv iota beta.
    assert (ts1 = (stored
        ++ [mkTask (PInt (Z.of_nat (length stored) + 1)) (PStr "Comprar víveres")
              (PStr "Leche, pan, huevos") (PBool false)])
        ++ [mkTask (PInt (Z.of_nat (length (stored
              ++ [mkTask (PInt (Z.of_nat (length stored) + 1)) (PStr "Comprar víveres")
                    (PStr "Leche, pan, huevos") (PBool false)])) + 1))
              (PStr "Estudiar") (PStr "Repasar SOLID y ACID") (PBool false)]) as Heq.
    { unfold ts1. rewrite <- app_assoc, length_app. simpl.
      by rewrite Nat.add_1_r, Nat2Z.inj_succ, Z.add_1_r. }
    rewrite <- Heq in Hp2 |- *. by exists fs2. }
  assert (main py_format stdout_write p =
          match TaskManager.complete_task 1 (TaskManager.mk repo ts1, fs2) with
          | (Raise e, (_, fs)) => (Raise e, mkProcess fs (stdout p))
          | (Return _, (manager, fs)) =>
              print_tasks py_format stdout_write (TaskManager.list_tasks manager)
                (mkProcess fs (stdout p))
          end) as ->.
  { unfold main. fold repo. rewrite Hinit. by rewrite Hadds. }
  destruct (TaskManager.complete_first 1 ts1) as [ts'|] eqn:Hts.
  - pose proof (complete_task_found 1 (TaskManager.mk repo ts1) fs2 ts' Hts) as Hrun.
    rewrite Hrun. simpl TaskManager.repository.
    destruct (save_tasks_fault_free repo ts' fs2 Hff2) as (fs3 & Hs3 & _ & Hff3).
    change (save_tasks repo ts' fs2) with (JsonTaskRepository.save_tasks repo ts' fs2).
    rewrite Hs3; simpl. exists fs3. split; [done|]. split; [done|].
    by eapply save_tasks_Return.
  - pose proof (complete_task_not_found 1 (TaskManager.mk repo ts1) fs2 Hts) as Hrun.
    rewrite Hrun. by exists fs2.
Qed.

(** X17.  On a disk without faults where [tasks.json] is absent or
    holds a collection with a task answering to id 1, [main] appends
    its two tasks to what was stored, completes the first task with
    id 1 and persists the result, all before it prints; it then
    prints one line per task, old and new.  If the standard output
    takes every line, [main] returns normally; if it refuses one,
    [main] ends with the exception of that [print], the lines before
    it printed and the collection already persisted. *)
Theorem main_appends p stored :
  fault_free (disk p) →
  persisted Scenario.repo (disk p) = Return stored →
  stored = [] ∨ (∃ t, t ∈ stored ∧ has_id 1 t = true) →
  ∃ ts' fs',
    TaskManager.complete_first 1 (stored ++ main_tasks (length stored)) = Some ts'
    ∧ length ts' = (length stored + 2)%nat
    ∧ persisted Scenario.repo fs' = Return ts'
    ∧ fault_free fs'
    ∧ (Forall (λ t, stdout_write (line t) = None) ts' →
       main py_format stdout_write p
         = (Return (), mkProcess fs' (stdout p ++ (line <$> ts'))))
    ∧ (∀ i t e,
         ts' !! i = Some t → stdout_write (line t) = Some e →
         (∀ j u, (j < i)%nat → ts' !! j = Some u → stdout_write (line u) = None) →
         main py_format stdout_write p
           = (Raise e, mkProcess fs' (stdout p ++ (line <$> take i ts')))).
Proof.
  intros Hff Hstored Hone.
  destruct (main_fault_free p stored Hff Hstored) as (fs' & Hff' & Hmain).
  assert (is_Some (TaskManager.complete_first 1 (stored ++ main_tasks (length stored))))
    as [ts' Hts].
  { apply complete_first_is_Some. destruct Hone as [-> | (t & Ht & Hid)].
    - eexists. split; [apply list_elem_of_here | reflexivity].
    - exists t. split; [|done]. apply elem_of_app. by left. }
  rewrite Hts in Hmain. destruct Hmain as [Hmain Hpers].
  exists ts', fs'. split; [done|]. split.
  { rewrite (complete_first_length _ _ _ Hts), length_app. done. }
  split; [done|]. split; [done|]. split.
  - intros Hall. rewrite Hmain. by rewrite print_tasks_accepted.
  - intros i t e Hi He Hbefore. rewrite Hmain.
    by rewrite (print_tasks_refused _ _ i t e).
Qed.

(** X18.  On a disk without faults where [tasks.json] holds a
    collection that is not empty and has no task answering to id 1,
    [main] ends with the uncaught [ValueError] of [complete_task(1)]:
    nothing is printed, but the two tasks it added before are already
    persisted. *)
Theorem main_fails_without_task_1 p stored :
  fault_free (disk p) →
  persisted Scenario.repo (disk p) = Return stored →
  stored ≠ [] →
  (∀ t, t ∈ stored → has_id 1 t = false) →
  ∃ fs',
    main py_format stdout_write p
      = (Raise (ValueError "Task with ID 1 not found"), mkProcess fs' (stdout p))
    ∧ persisted Scenario.repo fs' = Return (stored ++ main_tasks (length stored)).
Proof.
  intros Hff Hstored Hne Hnone.
  destruct (main_fault_free p stored Hff Hstored) as (fs' & Hff' & Hmain).
  assert (TaskManager.complete_first 1 (stored ++ main_tasks (length stored)) = None)
    as Hts.
  { apply complete_first_None, Forall_app. split; [by apply Forall_forall|].
    assert (0 < length stored)%nat by (destruct stored; [done | simpl; lia]).
    apply Forall_cons; split; [|apply Forall_cons; split; [|by apply Forall_nil]];
      unfold has_id; cbn [task_id py_eq_int]; apply Z.eqb_neq; lia. }
  rewrite Hts in Hmain. by exists fs'.
Qed.

End MainRun.

(** ** The further properties on concrete runs *)

(** X4 on a load that is hit by a fault. *)
Lemma load_tasks_read_only_witness :
  let fs := Scenario.disk_with [Scenario.task 1 "A" "descA" false] [io_fault] in
  ∃ r fs', JsonTaskRepository.load_tasks Scenario.repo fs = (r, fs')
           ∧ files fs' = files fs.
Proof.
  intros fs.
  destruct (JsonTaskRepository.load_tasks Scenario.repo fs) as [r fs'] eqn:Hload.
  exists r, fs'. split; [reflexivity|].
  apply (load_tasks_read_only Scenario.repo Scenario.repo fs r fs' Hload).
Defined.



(** X7 on a save whose write fails. *)
Lemma save_tasks_failure_witness :
  let ts := [Scenario.task 1 "A" "descA" false] in
  let e := Exception "Error saving tasks: " OSError in
  let fs' := mkFS {[ "tasks.json" := Malformed ]} [] in
  StorageError e
  ∧ (∃ cause, e = Exception "Error saving tasks: " cause)
  ∧ (files fs' = files (Scenario.disk_with ts [io_ok; io_fault])
     ∨ (files fs' !! "tasks.json" = Some Malformed
        ∧ persisted Scenario.repo fs'
          = Raise (Exception "Error loading tasks: " JSONDecodeError))).
Proof.
  intros ts e fs'.
  apply (save_tasks_failure Scenario.repo ts
           (Scenario.disk_with ts [io_ok; io_fault]) e fs').
  vm_compute. reflexivity.
Defined.

(** X8 on a file that holds an empty object. *)
Lemma load_tasks_not_an_array_witness :
  persisted Scenario.repo (mkFS {[ "tasks.json" := Document (PDict ∅) ]} []) = Return [].
Proof.
  destruct (load_tasks_not_an_array Scenario.repo
              (mkFS {[ "tasks.json" := Document (PDict ∅) ]} []) (PDict ∅))
    as [Hempty _].
  - reflexivity.
  - discriminate.
  - apply Hempty. left. reflexivity.
Defined.

(** X9 on the stored array of one task. *)
Lemma load_tasks_array_witness :
  let t := Scenario.task 5 "X" "descX" false in
  Forall2 (λ x t, ∃ d, x = PDict d ∧ Task_init d = Return t) [PDict (to_dict t)] [t].
Proof.
  intros t.
  apply (load_tasks_array Scenario.repo (Scenario.disk_with [t] []) [PDict (to_dict t)] [t]).
  - reflexivity.
  - vm_compute. reflexivity.
Defined.



(** X12 on a task that is completed while another is added. *)
Lemma run_ops_keeps_tasks_witness :
  let t := Scenario.task 1 "A" "descA" false in
  let s' := run_ops [Add "B" "descB"; Complete 1; Complete 9]
              (TaskManager.mk Scenario.repo [t], Scenario.empty_disk) in
  ∃ t', TaskManager.tasks s'.1 !! 0%nat = Some t' ∧ same_but_flag t t'.
Proof.
  intros t s'.
  apply (run_ops_keeps_tasks [Add "B" "descB"; Complete 1; Complete 9]
           (TaskManager.mk Scenario.repo [t]) Scenario.empty_disk).
  reflexivity.
Defined.

(** X13 on calls made from the empty collection, the first save
    failing. *)
Lemma run_ops_contiguous_ids_witness :
  let s' := run_ops [Add "A" "descA"; Add "B" "descB"; Complete 2]
              (TaskManager.mk Scenario.repo [], mkFS ∅ [io_fault]) in
  contiguous_ids (TaskManager.tasks s'.1) ∧ unique_ids (TaskManager.tasks s'.1).
Proof.
  intros s'.
  apply (run_ops_contiguous_ids [Add "A" "descA"; Add "B" "descB"; Complete 2]
           (TaskManager.mk Scenario.repo []) (mkFS ∅ [io_fault])).
  reflexivity.
Defined.


(** X15 on two tasks with the id 2: the second one stays as it is. *)
Lemma shadowed_task_never_completed_witness :
  let t1 := Scenario.task 2 "X" "descX" false in
  let t2 := Scenario.task 2 "Y" "descY" false in
  TaskManager.tasks
    (run_ops [Complete 2; Complete 2; Add "Z" "descZ"; Complete 2]
       (TaskManager.mk Scenario.repo [t1; t2], Scenario.empty_disk)).1 !! 1%nat
  = Some t2.
Proof.
  intros t1 t2.
  apply (shadowed_task_never_completed _ (TaskManager.mk Scenario.repo [t1; t2])
           Scenario.empty_disk 0 1 t1 t2).
  - reflexivity.
  - reflexivity.
  - lia.
  - intros m Hm. exact Hm.
Defined.

(** X16 on a construction over a file that does not parse, and on a
    [complete_task] of an id that no task has. *)
Lemma manager_exceptions_witness :
  let self := TaskManager.mk Scenario.repo [] in
  StorageError (Exception "Error loading tasks: " JSONDecodeError)
  ∧ (ValueError "Task with ID 7 not found" = Exception "Error saving tasks: " OSError
     ∨ ∃ n, Complete 7 = Complete n
            ∧ ValueError "Task with ID 7 not found"
              = ValueError ("Task with ID " +:+ pretty n +:+ " not found")
            ∧ self = self ∧ Scenario.empty_disk = Scenario.empty_disk).
Proof.
  intros self. destruct manager_exceptions as [Hinit Hop]. split.
  - apply (Hinit Scenario.repo (mkFS {[ "tasks.json" := Malformed ]} [])
             _ (mkFS {[ "tasks.json" := Malformed ]} [])).
    vm_compute. reflexivity.
  - apply (Hop (Complete 7) self Scenario.empty_disk _ self Scenario.empty_disk).
    vm_compute. reflexivity.
Defined.

(** X17 with the formatter of the scenarios: on a standard output
    that takes every line, and on one that refuses the second. *)
Lemma main_appends_witness :
  let lines := ["Task 1: Comprar víveres - Completed: True";
                "Task 2: Estudiar - Completed: False"] in
  let refuse_second (l : string) :=
    if decide (l = "Task 2: Estudiar - Completed: False") then Some UnicodeEncodeError else None in
  (∃ fs', main format_simple (λ _, None) (mkProcess Scenario.empty_disk [])
            = (Return (), mkProcess fs' lines))
  ∧ (∃ fs', main format_simple refuse_second (mkProcess Scenario.empty_disk [])
              = (Raise UnicodeEncodeError, mkProcess fs' (take 1 lines))).
Proof.
  intros lines refuse_second. split.
  - destruct (main_appends format_simple (λ _, None)
                (mkProcess Scenario.empty_disk []) [])
      as (ts' & fs' & Hts & _ & _ & _ & Hall & _);
      [constructor | vm_compute; reflexivity | left; reflexivity |].
    vm_compute in Hts. injection Hts as <-.
    exists fs'. rewrite Hall by (repeat constructor). reflexivity.
  - destruct (main_appends format_simple refuse_second
                (mkProcess Scenario.empty_disk []) [])
      as (ts' & fs' & Hts & _ & _ & _ & _ & Hrefused);
      [constructor | vm_compute; reflexivity | left; reflexivity |].
    vm_compute in Hts. injection Hts as <-.
    exists fs'. rewrite (Hrefused 1%nat _ UnicodeEncodeError eq_refl); [reflexivity..|].
    intros [|j] u Hj Hu; [|lia]. injection Hu as <-. reflexivity.
Defined.

(** X18 on a stored collection whose only task has the id 5. *)
Lemma main_fails_without_task_1_witness :
  let stored := [Scenario.task 5 "X" "descX" false] in
  ∃ fs',
    main format_simple (λ _, None) (mkProcess (Scenario.disk_with stored []) [])
      = (Raise (ValueError "Task with ID 1 not found"), mkProcess fs' [])
    ∧ persisted Scenario.repo fs'
      = Return (stored ++ new_tasks (length stored)
                            [("Comprar víveres", "Leche, pan, huevos");
                             ("Estudiar", "Repasar SOLID y ACID")]).
Proof.
  intros stored.
  apply (main_fails_without_task_1 format_simple (λ _, None)
           (mkProcess (Scenario.disk_with stored []) []) stored).
  - constructor.
  - vm_compute. reflexivity.
  - discriminate.
  - intros t ->%list_elem_of_singleton. reflexivity.
Defined.
